(** * frodo: a URL shortener over an embedded key-value engine

    Shallow embedding of [main.go]: the configuration read in [main], the three
    request handlers, the [KV] adapter and [GenerateRandomString], together
    with the properties the specification states about them.

    The handlers run in a small state monad over a [World] that holds what the
    Go process reaches through its environment: the contents of the badger
    database, the wall clock, the outcome of the engine's next operations
    and the bytes that [crypto/rand.Reader] will deliver. *)

From Stdlib Require Import ZArith String Ascii List Lia.
From Stdlib.Strings Require Import Byte.
From stdpp Require Import base tactics option list strings gmap.

Local Open Scope string_scope.
Local Open Scope Z_scope.

(** ** Machine integers and time *)

(** Two's-complement wrap-around of a 64-bit signed integer ([int64],
    [time.Duration], and [int] on the 64-bit targets the image is built for). *)
Definition wrap64 (x : Z) : Z := (x + 2 ^ 63) mod 2 ^ 64 - 2 ^ 63.

(** The conversion [uint64(x)]. *)
Definition uint64 (x : Z) : Z := x mod 2 ^ 64.

Definition minInt64 : Z := - 2 ^ 63.
Definition maxInt64 : Z := 2 ^ 63 - 1.

(** The runtime's limit on the size of one allocation, [maxAlloc], on the
    64-bit Linux targets the image is built for. *)
Definition maxAlloc : Z := 2 ^ 48.

(** [time.Minute], a [time.Duration] in nanoseconds. *)
Definition time_Minute : Z := 60 * 1000000000.

(** A [time.Time] is represented by its wall-clock reading in nanoseconds
    since the Unix epoch. [t.Add(d)] and [t.Unix()]. *)
Definition time_Add (t d : Z) : Z := t + d.
Definition time_Unix (t : Z) : Z := t / 1000000000.

(** ** Errors *)

(** Go [error] values that occur in the program. [Errorf prefix e] is
    [fmt.Errorf(prefix + ": %w", e)], which wraps [e]. *)
Inductive error : Type :=
  | ErrKeyNotFound                      (* badger.ErrKeyNotFound *)
  | ErrEngine (msg : string)            (* any other failure of the engine *)
  | NumError                            (* *strconv.NumError *)
  | ErrUnexpectedEOF                    (* rand.Reader could not be read *)
  | Errorf (prefix : string) (cause : error).

#[global] Instance error_eq_dec : EqDecision error.
Proof. solve_decision. Defined.

(** [errors.Is(err, target)] for a comparable [target]: follows the chain of
    wrapped errors. A nil [err] is never a match. *)
Fixpoint errors_Is_chain (e target : error) : bool :=
  if decide (e = target) then true
  else match e with
       | Errorf _ cause => errors_Is_chain cause target
       | _ => false
       end.

Definition errors_Is (err : option error) (target : error) : bool :=
  match err with
  | None => false
  | Some e => errors_Is_chain e target
  end.

(** ** The world of the process *)

(** What badger keeps for a key: the value and the expiry time in Unix
    seconds, [0] meaning that the record never expires. *)
Record Item : Type := mkItem { item_value : string; item_expiresAt : Z }.

#[global] Instance Item_eq_dec : EqDecision Item.
Proof. solve_decision. Defined.

Record World : Type := mkWorld {
  store : gmap string Item;       (* records physically present in the engine *)
  clock : Z;                      (* time.Now(), nanoseconds since the epoch *)
  faults : list (option string);  (* outcome of the engine's next operations *)
  entropy : list byte             (* bytes rand.Reader will deliver *)
}.

Definition set_store (s : gmap string Item) (w : World) : World :=
  mkWorld s (clock w) (faults w) (entropy w).
Definition set_faults (f : list (option string)) (w : World) : World :=
  mkWorld (store w) (clock w) f (entropy w).
Definition set_entropy (r : list byte) (w : World) : World :=
  mkWorld (store w) (clock w) (faults w) r.

(** A computation either returns a value in a new world or panics. *)
Inductive outcome (A : Type) : Type :=
  | Done (a : A) (w : World)
  | Panic (msg : string).
Arguments Done {A} a w.
Arguments Panic {A} msg.

Definition M (A : Type) : Type := World → outcome A.

#[global] Instance M_ret : MRet M := λ A a w, Done a w.
#[global] Instance M_bind : MBind M := λ A B f m w,
  match m w with
  | Done a w' => f a w'
  | Panic msg => Panic msg
  end.

Definition panic {A : Type} (msg : string) : M A := λ _, Panic msg.
Definition get_world : M World := λ w, Done w w.
Definition put_world (w : World) : M unit := λ _, Done tt w.

(** [time.Now()]. *)
Definition time_Now : M Z := w ← get_world; mret (clock w).

(** ** strconv.Atoi *)

(** The value of a decimal digit, computed as Go does on a byte:
    [ch -= '0'] wraps around, and anything above 9 is not a digit. *)
Definition digit_of (ch : ascii) : option Z :=
  let d := (Z.of_N (N_of_ascii ch) - 48) mod 256 in
  if d <=? 9 then Some d else None.

Fixpoint parse_digits (acc : Z) (s : string) : option Z :=
  match s with
  | EmptyString => Some acc
  | String ch s' =>
      match digit_of ch with
      | Some d => parse_digits (acc * 10 + d) s'
      | None => None
      end
  end.

(** [strconv.Atoi(s)]: an optional sign followed by at least one decimal
    digit, the value being in the range of [int]; anything else is a
    [*NumError]. *)
Definition Atoi (s : string) : Z * option error :=
  match s with
  | EmptyString => (0, Some NumError)
  | String c0 rest =>
      let neg := bool_decide (c0 = "-"%char) in
      let digits := if bool_decide (c0 = "-"%char ∨ c0 = "+"%char) then rest else s in
      match digits with
      | EmptyString => (0, Some NumError)
      | _ =>
          match parse_digits 0 digits with
          | None => (0, Some NumError)
          | Some un =>
              let n := if neg then - un else un in
              if (minInt64 <=? n) && (n <=? maxInt64) then (n, None)
              else ((if neg then minInt64 else maxInt64), Some NumError)
          end
      end
  end.

(** ** crypto/rand *)

Definition byte_val (b : byte) : Z := Z.of_N (Byte.to_N b).

(** The sampling loop of [rand.Int]: candidates of [k] bytes are read from the
    reader, the excess bits of the first byte are cleared with [mask], and a
    candidate is accepted when it is below [max]. [j] counts the bytes of the
    current candidate already read into [acc]. A reader that runs dry is a
    failed read. *)
Fixpoint rand_Int_loop (max : Z) (k : nat) (mask : Z) (j : nat) (acc : Z)
    (r : list byte) : (Z * option error) * list byte :=
  match r with
  | [] => ((0, Some ErrUnexpectedEOF), [])
  | b :: r' =>
      let acc' := match j with
                  | O => Z.land (byte_val b) mask
                  | S _ => acc * 256 + byte_val b
                  end in
      if decide (S j = k) then
        if acc' <? max then ((acc', None), r')
        else rand_Int_loop max k mask 0 0 r'
      else rand_Int_loop max k mask (S j) acc' r'
  end.

(** [rand.Int(rand.Reader, max)]: a value in [[0, max)], or the error of
    the reader. *)
Definition rand_Int (max : Z) : M (Z * option error) :=
  if max <=? 0 then panic "crypto/rand: argument to Int is <= 0"
  else
    let bitLen := if max - 1 =? 0 then 0 else Z.log2 (max - 1) + 1 in
    if bitLen =? 0 then mret (0, None)
    else
      let k := (bitLen + 7) / 8 in
      let b := if bitLen mod 8 =? 0 then 8 else bitLen mod 8 in
      w ← get_world;
      let '(res, r') := rand_Int_loop max (Z.to_nat k) (2 ^ b - 1) 0 0 (entropy w) in
      _ ← put_world (set_entropy r' w);
      mret res.

(** ** GenerateRandomString *)

Definition letters : string :=
  "0123456789ABCDEFGHIJKLMNOPQRSTUVWXYZabcdefghijklmnopqrstuvwxyz".

(** The body of the [for] loop and its continuation: [todo] iterations remain,
    the next one with index [i]; [ret] is the byte slice being filled. *)
Fixpoint GenerateRandomString_loop (todo i : nat) (ret : list ascii)
    : M (string * option error) :=
  match todo with
  | O => mret (string_of_list_ascii ret, None)
  | S todo' =>
      '(num, err) ← rand_Int (Z.of_nat (String.length letters));
      match err with
      | Some e => mret ("", Some e)
      | None =>
          match String.get (Z.to_nat num) letters with
          | None => panic "index out of range"
          | Some ch => GenerateRandomString_loop todo' (S i) (<[i := ch]> ret)
          end
      end
  end.

(** [make([]byte, n)] panics for a negative [n] and for an [n] above the
    runtime's limit on an allocation; otherwise the slice holds [n] zero
    bytes (an allocation within the limit is taken to succeed). *)
Definition GenerateRandomString (n : Z) : M (string * option error) :=
  if (n <? 0) || (maxAlloc <? n) then panic "makeslice: len out of range"
  else GenerateRandomString_loop (Z.to_nat n) 0 (replicate (Z.to_nat n) zero).

(** ** The embedded engine

    badger is an external dependency of the program. Its transactions are
    represented by what the program can observe of them: a lookup reports
    [ErrKeyNotFound] for a key that is absent or whose expiry time has passed,
    writes take effect when the transaction commits, and any operation may
    fail with an error of the engine's own (a failed read or write, a
    conflict at commit, a key the engine rejects), as the next element of
    [faults] says ([None], or an exhausted list, is an operation that goes
    through). The checks the engine makes on the key of a write are
    modelled as they are, since they decide which keys a store can come to
    hold; for lookups and deletes a rejected key is among the engine's
    errors. *)

Definition next_fault : M (option error) :=
  w ← get_world;
  match faults w with
  | [] => mret None
  | f :: fs => _ ← put_world (set_faults fs w); mret (ErrEngine <$> f)
  end.

(** badger's [isDeletedOrExpired], for a record that carries no delete mark,
    at time [now]. *)
Definition isDeletedOrExpired (expiresAt now : Z) : bool :=
  if expiresAt =? 0 then false
  else expiresAt <=? uint64 (time_Unix now).

(** [badger.Entry], [badger.NewEntry] and [Entry.WithTTL], which sets the
    expiry to [uint64(time.Now().Add(dur).Unix())]. *)
Record Entry : Type := mkEntry { Key : string; Value : string; ExpiresAt : Z }.

Definition NewEntry (key value : string) : Entry := mkEntry key value 0.

Definition WithTTL (e : Entry) (dur : Z) : M Entry :=
  now ← time_Now;
  mret (mkEntry (Key e) (Value e) (uint64 (time_Unix (time_Add now dur)))).

(** [txn.Get(key)]: the item and a nil error, or a nil item and the error. *)
Definition txn_Get (key : string) : M (option Item * option error) :=
  f ← next_fault;
  match f with
  | Some e => mret (None, Some e)
  | None =>
      w ← get_world;
      match store w !! key with
      | None => mret (None, Some ErrKeyNotFound)
      | Some it =>
          if isDeletedOrExpired (item_expiresAt it) (clock w)
          then mret (None, Some ErrKeyNotFound)
          else mret (Some it, None)
      end
  end.

(** [item.ValueCopy(nil)]. *)
Definition item_ValueCopy (it : Item) : M (string * option error) :=
  f ← next_fault;
  match f with
  | Some e => mret ("", Some e)
  | None => mret (item_value it, None)
  end.

(** [badger.ErrEmptyKey], [badger.ErrInvalidKey] and the largest key the
    engine takes. *)
Definition ErrEmptyKey : error := ErrEngine "Key cannot be empty".
Definition ErrInvalidKey : error :=
  ErrEngine "Key is using a reserved !badger! prefix".
Definition maxKeySize : Z := 65000.

(** The checks of badger's [txn.modify] on the key of an entry that is
    written: it must not be empty, must not start with the prefix of the
    engine's internal keys, and must not be longer than [maxKeySize]. *)
Definition modify_key_check (key : string) : option error :=
  if decide (key = "") then Some ErrEmptyKey
  else if String.prefix "!badger!" key then Some ErrInvalidKey
  else if maxKeySize <? Z.of_nat (String.length key)
       then Some (ErrEngine "Key exceeded 65000 limit")
  else None.

(** [txn.SetEntry(e)], [txn.Set(key, value)] and [txn.Delete(key)]. *)
Definition txn_SetEntry (e : Entry) : M (option error) :=
  match modify_key_check (Key e) with
  | Some err => mret (Some err)
  | None =>
      f ← next_fault;
      match f with
      | Some err => mret (Some err)
      | None =>
          w ← get_world;
          _ ← put_world (set_store (<[Key e := mkItem (Value e) (ExpiresAt e)]> (store w)) w);
          mret None
      end
  end.

Definition txn_Set (key value : string) : M (option error) :=
  txn_SetEntry (NewEntry key value).

Definition txn_Delete (key : string) : M (option error) :=
  f ← next_fault;
  match f with
  | Some err => mret (Some err)
  | None =>
      w ← get_world;
      _ ← put_world (set_store (delete key (store w)) w);
      mret None
  end.

(** [db.View(fn)] runs [fn] in a read-only transaction. The closures passed
    by the program assign to one captured variable; [fn] receives its value
    and returns it with the error. The database is open for as long as
    requests are served ([main] closes it when it returns), so the answer
    of [db.View] and [db.Update] for a closed database does not arise. *)
Definition db_View {S : Type} (captured : S) (fn : S → M (S * option error))
    : M (S * option error) :=
  fn captured.

(** [db.Update(fn)] runs [fn] in a read-write transaction and commits it;
    when [fn] or the commit fails the transaction is discarded and the
    database keeps the contents it had. *)
Definition db_Update (fn : M (option error)) : M (option error) :=
  w0 ← get_world;
  err ← fn;
  match err with
  | Some e =>
      w ← get_world; _ ← put_world (set_store (store w0) w); mret (Some e)
  | None =>
      f ← next_fault;
      match f with
      | Some e =>
          w ← get_world; _ ← put_world (set_store (store w0) w); mret (Some e)
      | None => mret None
      end
  end.

(** ** The KV adapter *)

Definition KV_Exists (key : string) : M (bool * option error) :=
  '(exists_, err) ← db_View false (λ exists_,
      '(val, err) ← txn_Get key;
      match err with
      | Some e => mret (exists_, Some e)
      | None =>
          match val with
          | Some _ => mret (true, None)
          | None => mret (exists_, None)
          end
      end);
  let err := if errors_Is err ErrKeyNotFound then None else err in
  mret (exists_, err).

(** In [return value, k.db.View(...)] the call is made first and [value] is
    read after it, as the gc compiler orders the operands. *)
Definition KV_Get (key : string) : M (string * option error) :=
  db_View "" (λ value,
      '(item, err) ← txn_Get key;
      match err with
      | Some e => mret (value, Some (Errorf "getting value" e))
      | None =>
          match item with
          | None => panic "invalid memory address or nil pointer dereference"
          | Some it =>
              '(valCopy, err) ← item_ValueCopy it;
              match err with
              | Some e => mret (value, Some (Errorf "copying value" e))
              | None => mret (valCopy, None)
              end
          end
      end).

Definition KV_Set (key value : string) (expiryMinutes : Z) : M (option error) :=
  db_Update (
    if expiryMinutes =? 0 then txn_Set key value
    else
      let entry := NewEntry key value in
      entry ← WithTTL entry (wrap64 (expiryMinutes * time_Minute));
      txn_SetEntry entry).

Definition KV_Delete (key : string) : M (option error) :=
  db_Update (txn_Delete key).

(** ** The HTTP context and the handlers *)

Definition StatusCreated : Z := 201.
Definition StatusNoContent : Z := 204.
Definition StatusBadRequest : Z := 400.
Definition StatusNotFound : Z := 404.
Definition StatusInternalServerError : Z := 500.

(** The part of [fiber.Ctx] the handlers read: route parameters and form
    fields. *)
Record Ctx : Type := mkCtx {
  ctx_params : gmap string string;
  ctx_form : gmap string string
}.

Definition Params (c : Ctx) (key : string) : string :=
  default "" (ctx_params c !! key).

(** [c.FormValue(key, defaultValue)]: the default stands in for a field that
    is missing or empty. *)
Definition FormValue (c : Ctx) (key defaultValue : string) : string :=
  match ctx_form c !! key with
  | Some v => if decide (v = "") then defaultValue else v
  | None => defaultValue
  end.

(** What a handler sends: [c.SendStatus(s)], [c.Status(s).JSON(m)] or
    [c.Redirect().To(url)]. *)
Inductive Response : Type :=
  | SendStatus (status : Z)
  | JSON (status : Z) (body : gmap string string)
  | RedirectTo (url : string).

Definition redirectHandler (c : Ctx) : M Response :=
  let shortCode := Params c "shortcode" in
  '(exists_, err) ← KV_Exists shortCode;
  match err with
  | Some _ => mret (SendStatus StatusInternalServerError)
  | None =>
      if negb exists_ then mret (SendStatus StatusNotFound)
      else
        '(url, err) ← KV_Get shortCode;
        match err with
        | Some _ => mret (SendStatus StatusInternalServerError)
        | None => mret (RedirectTo url)
        end
  end.

(** The validation of the [expiry] field: the minutes to use, or the
    response that rejects the request. *)
Definition parse_expiry (expiry : string) (expiryMinutes : Z) : Z + Response :=
  if decide (expiry ≠ "") then
    let '(exp, err) := Atoi expiry in
    match err with
    | Some _ =>
        inr (JSON StatusBadRequest {[ "error" := "expiry must be a number" ]})
    | None =>
        if exp <? 1 then
          inr (JSON StatusBadRequest {[ "error" := "expiry must be greater than 0" ]})
        else inl exp
    end
  else inl expiryMinutes.

Definition createHandler (c : Ctx) (shortCodeLength : Z) : M Response :=
  let shortCode := FormValue c "custom" "" in
  let url := FormValue c "url" "" in
  let expiry := FormValue c "expiry" "" in
  let expiryMinutes := 0 in
  if decide (url = "") then
    mret (JSON StatusBadRequest {[ "error" := "url is required" ]})
  else
    match parse_expiry expiry expiryMinutes with
    | inr resp => mret resp
    | inl expiryMinutes =>
        '(shortCode, err) ←
          (if decide (shortCode = "") then GenerateRandomString shortCodeLength
           else mret (shortCode, None));
        match err with
        | Some _ => mret (SendStatus StatusInternalServerError)
        | None =>
            err ← KV_Set shortCode url expiryMinutes;
            match err with
            | Some _ => mret (SendStatus StatusInternalServerError)
            | None => mret (JSON StatusCreated {[ "short_code" := shortCode ]})
            end
        end
    end.

Definition deleteHandler (c : Ctx) : M Response :=
  let shortCode := Params c "shortcode" in
  '(exists_, err) ← KV_Exists shortCode;
  match err with
  | Some _ => mret (SendStatus StatusInternalServerError)
  | None =>
      if negb exists_ then mret (SendStatus StatusNotFound)
      else
        err ← KV_Delete shortCode;
        match err with
        | Some _ => mret (SendStatus StatusInternalServerError)
        | None => mret (SendStatus StatusNoContent)
        end
  end.

(** ** Configuration read by [main] *)

(** [os.Getenv(key)] in the process environment [env]. *)
Definition os_Getenv (env : gmap string string) (key : string) : string :=
  default "" (env !! key).

(** The short-code length [main] hands to [createHandler]. *)
Definition main_shortCode (env : gmap string string) : Z :=
  let '(shortCode, err) := Atoi (os_Getenv env "SHORT_CODE_LENGTH") in
  match err with
  | Some _ => 6
  | None => shortCode
  end.

(** ** The routes registered by [main] *)

Definition StatusUnauthorized : Z := 401.

(** A request as the route closures of [main] see it: the headers, read with
    [c.Get], and the context handed on to the handler. *)
Record Request : Type := mkRequest {
  req_headers : gmap string string;
  req_ctx : Ctx
}.

(** [c.Get(key)]: the header, or the empty string when it is not sent. *)
Definition Get (r : Request) (key : string) : string :=
  default "" (req_headers r !! key).

(** The three routes: [GET /:shortcode], [POST /api/shorten] and
    [DELETE /api/shorten/:shortcode]. *)
Inductive Route : Type := GetShortcode | PostShorten | DeleteShorten.

(** The closure [main] registers for each route, with the [apiKey] and
    [shortCode] it captured. *)
Definition main_route (apiKey : string) (shortCode : Z) (route : Route)
    (r : Request) : M Response :=
  match route with
  | GetShortcode => redirectHandler (req_ctx r)
  | PostShorten =>
      if decide (Get r "X-API-KEY" ≠ apiKey) then
        mret (JSON StatusUnauthorized {[ "error" := "wrong api key" ]})
      else createHandler (req_ctx r) shortCode
  | DeleteShorten =>
      if decide (Get r "X-API-KEY" ≠ apiKey) then
        mret (JSON StatusUnauthorized {[ "error" := "wrong api key" ]})
      else deleteHandler (req_ctx r)
  end.

(** The routes as [main] sets them up from the process environment. *)
Definition main_app (env : gmap string string) : Route → Request → M Response :=
  let apiKey := os_Getenv env "API_KEY" in
  let shortCode := main_shortCode env in
  main_route apiKey shortCode.

(** ** Vocabulary of the properties *)

(** The 62 symbols [0-9A-Za-z], by character code. *)
Definition alphabet (ch : ascii) : bool :=
  let c := Z.of_N (N_of_ascii ch) in
  ((48 <=? c) && (c <=? 57)) || ((65 <=? c) && (c <=? 90))
  || ((97 <=? c) && (c <=? 122)).

(** Two worlds that differ at most in the unread part of the random source. *)
Definition same_db (w w' : World) : Prop :=
  store w' = store w ∧ clock w' = clock w ∧ faults w' = faults w.

(** The engine's next [k] operations go through. *)
Definition no_faults (k : nat) (w : World) : Prop :=
  Forall (λ f, f = None) (take k (faults w)).

(** The world after one operation of the engine has been accounted for. *)
Definition pop_fault (w : World) : World :=
  match faults w with
  | [] => w
  | _ :: fs => set_faults fs w
  end.

(** A record for [key] is present and has not expired. *)
Definition live (w : World) (key : string) : bool :=
  match store w !! key with
  | Some it => negb (isDeletedOrExpired (item_expiresAt it) (clock w))
  | None => false
  end.

(** The expiry time [KV.Set] stores at time [now] for [expiryMinutes]. *)
Definition Set_expiresAt (now expiryMinutes : Z) : Z :=
  if expiryMinutes =? 0 then 0
  else uint64 (time_Unix (time_Add now (wrap64 (expiryMinutes * time_Minute)))).

(** The bytes the sampler accepts for the 62 symbols, and the symbol an
    accepted byte stands for. *)
Definition accepted (b : byte) : bool := Z.land (byte_val b) 63 <? 62.

Definition symbol_of (b : byte) : option ascii :=
  String.get (Z.to_nat (Z.land (byte_val b) 63)) letters.

(** The first accepted byte of a reader and what follows it. *)
Fixpoint next_accepted (r : list byte) : option (byte * list byte) :=
  match r with
  | [] => None
  | b :: r' => if accepted b then Some (b, r') else next_accepted r'
  end.

(** What is left of a reader once [n] accepted bytes have been read. *)
Fixpoint after_accepted (n : nat) (r : list byte) {struct r} : list byte :=
  match r with
  | [] => []
  | b :: r' =>
      match n with
      | O => r
      | S n' => if accepted b then after_accepted n' r' else after_accepted n r'
      end
  end.

#[global] Instance byte_eq_decision : EqDecision byte := Byte.byte_eq_dec.

(** The 256 byte values. *)
Definition all_bytes : list byte :=
  omap (λ n, Byte.of_N (N.of_nat n)) (seq 0 256).

(** What [GenerateRandomString 1] returns when the reader holds the single
    byte [b]: the one-symbol string, or nothing when the byte is rejected. *)
Definition first_symbol (b : byte) : option string :=
  match GenerateRandomString 1 (mkWorld ∅ 0 [] [b]) with
  | Done (s, None) _ => Some s
  | _ => None
  end.

(** Stepping through the monad and through the adapter. *)
Ltac munfold :=
  unfold mbind, M_bind, mret, M_ret, get_world, put_world, panic, time_Now in *.

Ltac kv_unfold :=
  unfold KV_Exists, KV_Get, KV_Set, KV_Delete, db_View, db_Update, txn_Get,
    txn_Set, txn_SetEntry, txn_Delete, item_ValueCopy, WithTTL, next_fault,
    NewEntry in *;
  munfold.

(** * Properties *)

(** ** The random source and the code generator *)

Lemma letters_length : String.length letters = 62%nat.
Proof. reflexivity. Qed.

Lemma letters_NoDup : NoDup (list_ascii_of_string letters).
Proof. refine (bool_decide_unpack _ _). vm_compute. exact I. Qed.

Lemma letters_alphabet_bool (ch : ascii) :
  bool_decide (ch ∈ list_ascii_of_string letters) = alphabet ch.
Proof. destruct ch as [[] [] [] [] [] [] [] []]; vm_compute; reflexivity. Qed.

Lemma letters_alphabet (ch : ascii) :
  ch ∈ list_ascii_of_string letters ↔ alphabet ch = true.
Proof.
  rewrite <- letters_alphabet_bool. split.
  - apply bool_decide_eq_true_2.
  - apply bool_decide_eq_true_1.
Qed.

(** Indexing [letters] below its length yields a symbol of the alphabet. *)
Lemma letters_get (n : Z) :
  0 <= n < 62 →
  ∃ ch, String.get (Z.to_nat n) letters = Some ch ∧ alphabet ch = true.
Proof.
  intros Hn.
  assert (Hk : (Z.to_nat n < 62)%nat) by lia.
  revert Hk. generalize (Z.to_nat n). intros k Hk.
  do 62 (destruct k as [|k]; [eexists; split; reflexivity|]).
  lia.
Qed.

(** An accepted candidate lies in [[0, max)]. *)
Lemma rand_Int_loop_range (max : Z) (k : nat) (mask : Z) (r : list byte) :
  0 <= mask →
  ∀ (j : nat) (acc n : Z) (r' : list byte),
    0 <= acc →
    rand_Int_loop max k mask j acc r = ((n, None), r') →
    0 <= n < max.
Proof.
  intros Hmask. induction r as [|b r IH]; intros j acc n r' Hacc H.
  - discriminate H.
  - cbn [rand_Int_loop] in H.
    assert (Hb : 0 <= byte_val b) by (unfold byte_val; lia).
    set (acc' := match j with
                 | O => Z.land (byte_val b) mask
                 | S _ => acc * 256 + byte_val b
                 end) in *.
    assert (Hacc' : 0 <= acc').
    { subst acc'. destruct j; [apply Z.land_nonneg; lia | lia]. }
    destruct (decide (S j = k)).
    + destruct (acc' <? max) eqn:Hlt.
      * inversion H; subst. apply Z.ltb_lt in Hlt. lia.
      * eapply IH; [|exact H]. lia.
    + eapply IH; [|exact H]. exact Hacc'.
Qed.

(** [rand.Int] touches nothing but the reader, and a value it returns
    without error lies in [[0, max)]. *)
Lemma rand_Int_spec (max : Z) (w w' : World) (n : Z) (err : option error) :
  rand_Int max w = Done (n, err) w' →
  (∃ r', w' = set_entropy r' w ∨ w' = w) ∧ (err = None → 0 <= n < max).
Proof.
  unfold rand_Int. destruct (max <=? 0) eqn:Hmax; [discriminate|].
  apply Z.leb_gt in Hmax.
  set (bitLen := if max - 1 =? 0 then 0 else Z.log2 (max - 1) + 1).
  destruct (bitLen =? 0) eqn:Hbl.
  - munfold. intros H; inversion H; subst. split; [exists []; by right|].
    intros _. subst bitLen. destruct (max - 1 =? 0) eqn:E.
    + apply Z.eqb_eq in E. lia.
    + apply Z.eqb_eq in Hbl. pose proof (Z.log2_nonneg (max - 1)). lia.
  - munfold.
    destruct (rand_Int_loop _ _ _ _ _ _) as [[n0 e0] r'] eqn:Hloop.
    intros H; inversion H; subst. split; [exists r'; by left|].
    intros ->. eapply rand_Int_loop_range; [| |exact Hloop]; [|lia].
    assert (0 < 2 ^ (if bitLen mod 8 =? 0 then 8 else bitLen mod 8)); [|lia].
    apply Z.pow_pos_nonneg; [lia|].
    destruct (bitLen mod 8 =? 0); [lia|].
    apply Z.mod_pos_bound. lia.
Qed.

Lemma same_db_refl (w : World) : same_db w w.
Proof. by unfold same_db. Qed.

Lemma same_db_trans (w1 w2 w3 : World) :
  same_db w1 w2 → same_db w2 w3 → same_db w1 w3.
Proof. unfold same_db. intros (-> & -> & ->) (-> & -> & ->). done. Qed.

Lemma rand_Int_same_db (max : Z) (w w' : World) (res : Z * option error) :
  rand_Int max w = Done res w' → same_db w w'.
Proof.
  destruct res as [n err]. intros H.
  destruct (rand_Int_spec _ _ _ _ _ H) as [[r' [-> | ->]] _]; by unfold same_db.
Qed.

Lemma length_string_of_list_ascii (l : list ascii) :
  String.length (string_of_list_ascii l) = length l.
Proof. induction l as [|a l IH]; [done|]. cbn. by rewrite IH. Qed.

(** Invariant of the loop of [GenerateRandomString]: before the iteration
    with index [i], the first [i] bytes of [ret] are symbols of the alphabet
    and [todo] positions remain to be filled. *)
Lemma GenerateRandomString_loop_inv (todo : nat) :
  ∀ (i : nat) (ret : list ascii) (w w' : World) (s : string),
    (i + todo = length ret)%nat →
    Forall (λ ch, alphabet ch = true) (take i ret) →
    GenerateRandomString_loop todo i ret w = Done (s, None) w' →
    String.length s = length ret
    ∧ Forall (λ ch, alphabet ch = true) (list_ascii_of_string s)
    ∧ same_db w w'.
Proof.
  induction todo as [|todo IH]; intros i ret w w' s Hlen Hpre H.
  - cbn in H. munfold. inversion H; subst.
    rewrite length_string_of_list_ascii, list_ascii_of_string_of_list_ascii.
    split; [done|]. split; [|apply same_db_refl].
    rewrite take_ge in Hpre by lia. exact Hpre.
  - cbn [GenerateRandomString_loop] in H. unfold mbind, M_bind in H.
    destruct (rand_Int _ w) as [[num err] w1|msg] eqn:Hrand; [|discriminate].
    destruct err as [e|]; [munfold; discriminate|].
    destruct (rand_Int_spec _ _ _ _ _ Hrand) as [_ Hrange].
    specialize (Hrange eq_refl). rewrite letters_length in Hrange.
    destruct (letters_get num) as (ch & Hget & Hch); [lia|].
    rewrite Hget in H.
    apply IH in H.
    + rewrite length_insert in H. destruct H as (Hs & Hall & Hdb).
      split; [done|]. split; [done|].
      eapply same_db_trans; [|exact Hdb]. eapply rand_Int_same_db, Hrand.
    + rewrite length_insert. lia.
    + rewrite (take_S_r _ _ ch) by (apply list_lookup_insert_eq; lia).
      rewrite take_insert_ge by lia.
      apply Forall_app. split; [done|]. by apply Forall_singleton.
Qed.

(** [rand.Int] panics only on a bound that is not positive. *)
Lemma rand_Int_total (max : Z) (w : World) :
  0 < max → ∃ res w', rand_Int max w = Done res w'.
Proof.
  intros Hmax. unfold rand_Int.
  destruct (max <=? 0) eqn:E; [apply Z.leb_le in E; lia|].
  destruct (_ =? 0); munfold; [eauto|].
  destruct (rand_Int_loop _ _ _ _ _ _) as [res r']. eauto.
Qed.

(** The loop never panics: an index into [letters] is always in range. *)
Lemma GenerateRandomString_loop_total (todo : nat) :
  ∀ (i : nat) (ret : list ascii) (w : World),
    ∃ res w', GenerateRandomString_loop todo i ret w = Done res w'.
Proof.
  induction todo as [|todo IH]; intros i ret w.
  - cbn. munfold. eauto.
  - cbn [GenerateRandomString_loop]. unfold mbind, M_bind.
    destruct (rand_Int _ w) as [[num err] w1|msg] eqn:Hrand.
    + destruct err as [e|]; [munfold; eauto|].
      destruct (rand_Int_spec _ _ _ _ _ Hrand) as [_ Hrange].
      specialize (Hrange eq_refl). rewrite letters_length in Hrange.
      destruct (letters_get num) as (ch & Hget & _); [lia|].
      rewrite Hget. apply IH.
    + destruct (rand_Int_total (Z.of_nat (String.length letters)) w)
        as (res & w1 & Hres); [rewrite letters_length; lia | congruence].
Qed.

(** [GenerateRandomString] is its loop on the lengths [make] accepts, and
    panics on the others. *)
Lemma GenerateRandomString_in_range (n : Z) (w : World) :
  0 <= n <= maxAlloc →
  GenerateRandomString n w =
    GenerateRandomString_loop (Z.to_nat n) 0 (replicate (Z.to_nat n) zero) w.
Proof.
  intros Hn. unfold GenerateRandomString.
  destruct (n <? 0) eqn:E1; [apply Z.ltb_lt in E1; lia|].
  destruct (maxAlloc <? n) eqn:E2; [apply Z.ltb_lt in E2; lia|].
  reflexivity.
Qed.

Lemma GenerateRandomString_out_of_range (n : Z) (w : World) :
  n < 0 ∨ maxAlloc < n →
  GenerateRandomString n w = Panic "makeslice: len out of range".
Proof.
  intros Hn. unfold GenerateRandomString.
  destruct (n <? 0) eqn:E1; [reflexivity|].
  destruct (maxAlloc <? n) eqn:E2; [reflexivity|].
  apply Z.ltb_ge in E1, E2. lia.
Qed.

Lemma GenerateRandomString_Done (n : Z) (w w' : World)
    (res : string * option error) :
  GenerateRandomString n w = Done res w' →
  0 <= n <= maxAlloc
  ∧ GenerateRandomString_loop (Z.to_nat n) 0 (replicate (Z.to_nat n) zero) w
    = Done res w'.
Proof.
  intros H. destruct (decide (0 <= n <= maxAlloc)) as [Hn|Hn].
  - split; [done|]. by rewrite <- GenerateRandomString_in_range.
  - rewrite GenerateRandomString_out_of_range in H by lia. discriminate.
Qed.

Lemma GenerateRandomString_same_db (n : Z) (w w' : World)
    (res : string * option error) :
  GenerateRandomString n w = Done res w' → same_db w w'.
Proof.
  intros H. apply GenerateRandomString_Done in H as [_ H]. revert H.
  generalize (replicate (Z.to_nat n) zero), 0%nat.
  revert w. induction (Z.to_nat n) as [|todo IH]; intros w ret i H.
  - cbn in H. munfold. inversion H. apply same_db_refl.
  - cbn [GenerateRandomString_loop] in H. unfold mbind, M_bind in H.
    destruct (rand_Int _ w) as [[num err] w1|msg] eqn:Hrand; [|discriminate].
    apply rand_Int_same_db in Hrand.
    destruct err as [e|].
    + munfold. inversion H; subst. exact Hrand.
    + destruct (String.get _ _); [|discriminate].
      eapply same_db_trans; [exact Hrand|]. eapply IH, H.
Qed.

(** C2. For every length [n >= 1], a call of [GenerateRandomString n] that
    returns without error returns a string of exactly [n] characters, each
    of them one of the 62 symbols [0-9A-Za-z] of [letters]. *)
Theorem GenerateRandomString_length_alphabet
    (n : Z) (w w' : World) (s : string) :
  1 <= n →
  GenerateRandomString n w = Done (s, None) w' →
  Z.of_nat (String.length s) = n
  ∧ Forall (λ ch, ch ∈ list_ascii_of_string letters ∧ alphabet ch = true)
      (list_ascii_of_string s).
Proof.
  intros Hn H. apply GenerateRandomString_Done in H as [_ H].
  apply GenerateRandomString_loop_inv in H.
  - destruct H as (Hlen & Hall & _). rewrite length_replicate in Hlen.
    split; [lia|].
    eapply Forall_impl; [exact Hall|].
    intros ch Hch. split; [by apply letters_alphabet | done].
  - rewrite length_replicate. lia.
  - apply Forall_nil_2.
Qed.

(** A run of the statement above: three codes' worth of bytes, two of which
    the sampler rejects. *)
Lemma GenerateRandomString_length_alphabet_witness :
  Z.of_nat (String.length "0z1") = 3
  ∧ Forall (λ ch, ch ∈ list_ascii_of_string letters ∧ alphabet ch = true)
      (list_ascii_of_string "0z1").
Proof.
  refine (GenerateRandomString_length_alphabet 3
            (mkWorld ∅ 0 [] [Byte.x00; Byte.xff; Byte.x3e; Byte.x3d; Byte.x41])
            (mkWorld ∅ 0 [] []) "0z1" _ _).
  - lia.
  - vm_compute. reflexivity.
Defined.

(** ** The engine and the adapter *)

Lemma store_pop_fault (w : World) : store (pop_fault w) = store w.
Proof. unfold pop_fault. by destruct (faults w). Qed.

Lemma clock_pop_fault (w : World) : clock (pop_fault w) = clock w.
Proof. unfold pop_fault. by destruct (faults w). Qed.

Lemma entropy_pop_fault (w : World) : entropy (pop_fault w) = entropy w.
Proof. unfold pop_fault. by destruct (faults w). Qed.

Lemma faults_pop_fault (w : World) : faults (pop_fault w) = tail (faults w).
Proof. unfold pop_fault. by destruct (faults w) eqn:E; [rewrite E|]. Qed.

Lemma live_pop_fault (w : World) (key : string) :
  live (pop_fault w) key = live w key.
Proof. unfold live. by rewrite store_pop_fault, clock_pop_fault. Qed.

Lemma no_faults_pop (k : nat) (w : World) :
  no_faults (S k) w → no_faults k (pop_fault w).
Proof.
  unfold no_faults. rewrite faults_pop_fault.
  destruct (faults w) as [|f fs]; cbn; [by destruct k|].
  by inversion 1.
Qed.

Lemma no_faults_le (k k' : nat) (w : World) :
  (k' ≤ k)%nat → no_faults k w → no_faults k' w.
Proof.
  unfold no_faults. intros Hle H.
  replace k' with (k' `min` k)%nat by lia.
  rewrite <- take_take. by apply Forall_take.
Qed.

Lemma next_fault_quiet (k : nat) (w : World) :
  no_faults (S k) w → next_fault w = Done None (pop_fault w).
Proof.
  unfold no_faults, next_fault, pop_fault. munfold.
  destruct (faults w) as [|f fs]; [done|].
  cbn. inversion 1; subst. done.
Qed.

Lemma next_fault_fault (w : World) (msg : string) (fs : list (option string)) :
  faults w = Some msg :: fs →
  next_fault w = Done (Some (ErrEngine msg)) (set_faults fs w).
Proof. unfold next_fault. munfold. by intros ->. Qed.

(** [txn.Get] on a quiet engine reports exactly the live records. *)
Lemma txn_Get_quiet (k : nat) (w : World) (key : string) :
  no_faults (S k) w →
  txn_Get key w =
    Done (if live w key then (store w !! key, None)
          else (None, Some ErrKeyNotFound)) (pop_fault w).
Proof.
  intros Hq. unfold txn_Get, mbind, M_bind.
  rewrite (next_fault_quiet k _ Hq). munfold.
  unfold live. rewrite store_pop_fault, clock_pop_fault.
  destruct (store w !! key) as [it|]; [|done].
  by destruct (isDeletedOrExpired _ _).
Qed.

Lemma KV_Exists_quiet (k : nat) (w : World) (key : string) :
  no_faults (S k) w →
  KV_Exists key w = Done (live w key, None) (pop_fault w).
Proof.
  intros Hq. unfold KV_Exists, db_View, mbind, M_bind.
  rewrite (txn_Get_quiet k _ _ Hq).
  unfold live. destruct (store w !! key) as [it|]; [|done].
  by destruct (isDeletedOrExpired _ _).
Qed.

Lemma KV_Exists_fault (w : World) (key msg : string)
    (fs : list (option string)) :
  faults w = Some msg :: fs →
  KV_Exists key w = Done (false, Some (ErrEngine msg)) (set_faults fs w).
Proof.
  intros Hf. unfold KV_Exists, db_View, txn_Get, mbind, M_bind.
  by rewrite (next_fault_fault _ _ _ Hf).
Qed.

Lemma KV_Get_quiet (k : nat) (w : World) (key : string) (it : Item) :
  no_faults (S (S k)) w →
  store w !! key = Some it →
  live w key = true →
  KV_Get key w = Done (item_value it, None) (pop_fault (pop_fault w)).
Proof.
  intros Hq Hit Hlive. unfold KV_Get, db_View, mbind, M_bind.
  rewrite (txn_Get_quiet (S k) _ _ Hq), Hlive, Hit.
  unfold item_ValueCopy, mbind, M_bind.
  by rewrite (next_fault_quiet k _ (no_faults_pop _ _ Hq)).
Qed.

(** [KV.Set] always returns; it leaves clock and random source alone, and
    the database holds the new record exactly when no error is returned. *)
Lemma KV_Set_inv (key value : string) (m : Z) (w : World) :
  ∃ err w',
    KV_Set key value m w = Done err w'
    ∧ clock w' = clock w ∧ entropy w' = entropy w
    ∧ store w' = match err with
                 | None => <[key := mkItem value (Set_expiresAt (clock w) m)]> (store w)
                 | Some _ => store w
                 end.
Proof.
  destruct w as [st ck fs en]. unfold Set_expiresAt.
  destruct (modify_key_check key) as [e|] eqn:Hkey; kv_unfold; munfold;
    destruct (m =? 0); cbn; rewrite Hkey; cbn; eauto 10;
    destruct fs as [|[msg|] [|[msg'|] fs]]; cbn; eauto 10.
Qed.

(** A key the engine does not take makes [KV.Set] fail, whatever else the
    engine would do, and the world is as it was. *)
Lemma KV_Set_rejected (key value : string) (m : Z) (w : World) (e : error) :
  modify_key_check key = Some e →
  KV_Set key value m w = Done (Some e) w.
Proof.
  intros Hkey. destruct w as [st ck fs en]. kv_unfold. munfold.
  destruct (m =? 0); cbn; rewrite Hkey; reflexivity.
Qed.

Lemma KV_Set_quiet (k : nat) (key value : string) (m : Z) (w : World) :
  modify_key_check key = None →
  no_faults (S (S k)) w →
  KV_Set key value m w =
    Done None
      (set_store (<[key := mkItem value (Set_expiresAt (clock w) m)]> (store w))
         (pop_fault (pop_fault w))).
Proof.
  intros Hkey.
  destruct w as [st ck fs en]. unfold no_faults, Set_expiresAt. kv_unfold.
  munfold. cbn. intros Hq.
  destruct (m =? 0); cbn; rewrite Hkey; cbn;
    destruct fs as [|f1 fs]; cbn; try done;
    inversion Hq as [|? ? -> Hq']; subst; cbn;
    destruct fs as [|f2 fs]; cbn; try done;
    inversion Hq' as [|? ? -> _]; subst; done.
Qed.

(** [KV.Delete] always returns; the key is gone exactly when no error is
    returned. *)
Lemma KV_Delete_inv (key : string) (w : World) :
  ∃ err w',
    KV_Delete key w = Done err w'
    ∧ clock w' = clock w ∧ entropy w' = entropy w
    ∧ store w' = match err with
                 | None => delete key (store w)
                 | Some _ => store w
                 end.
Proof.
  destruct w as [st ck fs en]. kv_unfold.
  destruct fs as [|[msg|] [|[msg'|] fs]]; cbn; eauto 10.
Qed.

Lemma KV_Delete_quiet (k : nat) (key : string) (w : World) :
  no_faults (S (S k)) w →
  KV_Delete key w =
    Done None (set_store (delete key (store w)) (pop_fault (pop_fault w))).
Proof.
  destruct w as [st ck fs en]. unfold no_faults. kv_unfold.
  cbn. intros Hq.
  destruct fs as [|f1 fs]; cbn; try done.
  inversion Hq as [|? ? -> Hq']; subst; cbn.
  destruct fs as [|f2 fs]; cbn; try done.
  inversion Hq' as [|? ? -> _]; subst; done.
Qed.

(** A record without expiry time is never expired. *)
Lemma isDeletedOrExpired_zero (now : Z) : isDeletedOrExpired 0 now = false.
Proof. reflexivity. Qed.

(** For a time-to-live of up to 153722867 minutes, the largest whose
    nanoseconds fit a [time.Duration], the stored expiry is the Unix time of
    the write plus that many minutes. *)
Lemma Set_expiresAt_in_range (now m : Z) :
  0 < m <= 153722867 →
  0 <= time_Unix now + 60 * m < 2 ^ 64 →
  Set_expiresAt now m = time_Unix now + 60 * m.
Proof.
  intros Hm Hnow. unfold Set_expiresAt.
  destruct (m =? 0) eqn:E; [apply Z.eqb_eq in E; lia|].
  unfold wrap64, time_Minute, time_Add, uint64, time_Unix in *.
  rewrite (Z.mod_small (m * _ + 2 ^ 63)) by lia.
  replace (now + (m * (60 * 1000000000) + 2 ^ 63 - 2 ^ 63))
    with (now + (60 * m) * 1000000000) by lia.
  rewrite Z.div_add by lia.
  apply Z.mod_small. lia.
Qed.

(** What [KV.Set] writes on a quiet engine under a key the engine takes:
    without expiry for zero minutes,
    and with the Unix time of the write plus the minutes for a time-to-live
    of up to 153722867 minutes. *)
Lemma KV_Set_written (key value : string) (m : Z) (w : World) :
  modify_key_check key = None →
  no_faults 2 w →
  ∃ w', KV_Set key value m w = Done None w'
    ∧ (m = 0 →
       store w' !! key = Some (mkItem value 0)
       ∧ ∀ now, isDeletedOrExpired 0 now = false)
    ∧ (0 < m <= 153722867 →
       0 <= time_Unix (clock w) + 60 * m < 2 ^ 64 →
       store w' !! key = Some (mkItem value (time_Unix (clock w) + 60 * m))).
Proof.
  intros Hkey Hq. eexists. split; [by apply (KV_Set_quiet 0)|].
  cbn [store set_store]. rewrite lookup_insert_eq. split.
  - intros ->. done.
  - intros Hm Hnow. by rewrite Set_expiresAt_in_range.
Qed.

(** C4. [KV.Set] with a positive number of minutes whose nanoseconds
    overflow [time.Duration]: for 307445734 minutes the product
    [time.Duration(expiryMinutes) * time.Minute] wraps around to about -33.7
    seconds, so the record is written with an expiry time 34 seconds before
    the write instead of the time of the write plus 307445734 minutes, and
    [Exists] does not see it. The value passes the validation of
    [createHandler], whose 201 is followed at once by a 404 for the code. *)
Theorem KV_Set_ttl_overflow :
  let w := mkWorld ∅ 1700000000000000000 [] [] in
  wrap64 (307445734 * time_Minute) = -33709551616
  ∧ ∃ w',
      KV_Set "abc" "https://x.com" 307445734 w = Done None w'
      ∧ store w' !! "abc" = Some (mkItem "https://x.com" 1699999966)
      ∧ time_Unix (clock w) + 60 * 307445734 = 20146744040
      ∧ KV_Exists "abc" w' = Done (false, None) w'
      ∧ createHandler
          (mkCtx ∅ {[ "custom" := "abc"; "url" := "https://x.com";
                      "expiry" := "307445734" ]}) 6 w
        = Done (JSON StatusCreated {[ "short_code" := "abc" ]}) w'
      ∧ redirectHandler (mkCtx {[ "shortcode" := "abc" ]} ∅) w'
        = Done (SendStatus StatusNotFound) w'.
Proof.
  cbv zeta. split; [reflexivity|].
  eexists. split; [vm_compute; reflexivity|].
  split_and!; reflexivity.
Qed.

(** C5. [KV.Exists] returns [false] and no error when the engine reports
    that the key is not found, returns [true] when a live (present, not
    expired) record for the key exists and the engine's lookup goes through,
    and hands any other error of the lookup to the caller unchanged. *)
Theorem KV_Exists_spec (key : string) (w : World) :
  (∀ val w', txn_Get key w = Done (val, Some ErrKeyNotFound) w' →
             KV_Exists key w = Done (false, None) w')
  ∧ (∀ it, no_faults 1 w →
           store w !! key = Some it →
           isDeletedOrExpired (item_expiresAt it) (clock w) = false →
           KV_Exists key w = Done (true, None) (pop_fault w))
  ∧ (∀ val e w', txn_Get key w = Done (val, Some e) w' →
                 errors_Is (Some e) ErrKeyNotFound = false →
                 KV_Exists key w = Done (false, Some e) w').
Proof.
  split; [|split].
  - intros val w' H. unfold KV_Exists, db_View, mbind, M_bind. by rewrite H.
  - intros it Hq Hit Hexp. rewrite (KV_Exists_quiet 0 _ _ Hq).
    unfold live. by rewrite Hit, Hexp.
  - intros val e w' H His. unfold KV_Exists, db_View, mbind, M_bind.
    rewrite H. munfold. cbn in *. by rewrite His.
Qed.

Lemma KV_Exists_spec_witness :
  let w := mkWorld {[ "abc" := mkItem "https://a.com" 0 ]} 1700000000000000000
             [] [] in
  let wf := mkWorld {[ "abc" := mkItem "https://a.com" 0 ]} 1700000000000000000
              [Some "disk"] [] in
  KV_Exists "xyz" w = Done (false, None) w
  ∧ KV_Exists "abc" w = Done (true, None) (pop_fault w)
  ∧ KV_Exists "abc" wf = Done (false, Some (ErrEngine "disk")) (pop_fault wf).
Proof.
  cbv zeta. split; [|split].
  - apply (proj1 (KV_Exists_spec "xyz" _) None). vm_compute. reflexivity.
  - apply (proj1 (proj2 (KV_Exists_spec "abc" _)) (mkItem "https://a.com" 0)).
    + apply Forall_nil_2.
    + reflexivity.
    + reflexivity.
  - apply (proj2 (proj2 (KV_Exists_spec "abc" _)) None).
    + vm_compute. reflexivity.
    + reflexivity.
Defined.

(** The engine reports "key not found" on a quiet lookup exactly when no
    live record exists, and an error of its own is never "key not found". *)
Lemma txn_Get_not_found (key : string) (w : World) :
  no_faults 1 w →
  live w key = false →
  txn_Get key w = Done (None, Some ErrKeyNotFound) (pop_fault w).
Proof. intros Hq Hl. by rewrite (txn_Get_quiet 0 _ _ Hq), Hl. Qed.

Lemma txn_Get_fault (key msg : string) (w : World) (fs : list (option string)) :
  faults w = Some msg :: fs →
  txn_Get key w = Done (None, Some (ErrEngine msg)) (set_faults fs w)
  ∧ errors_Is (Some (ErrEngine msg)) ErrKeyNotFound = false.
Proof.
  intros Hf. split; [|reflexivity].
  unfold txn_Get, mbind, M_bind. by rewrite (next_fault_fault _ _ _ Hf).
Qed.

(** ** The handlers *)

(** [parse_expiry] rejects with a 400 response only. *)
Lemma parse_expiry_inr (expiry : string) (d : Z) (resp : Response) :
  parse_expiry expiry d = inr resp → ∃ body, resp = JSON StatusBadRequest body.
Proof.
  unfold parse_expiry. destruct (decide _); [|discriminate].
  destruct (Atoi expiry) as [exp [e|]].
  - intros [= <-]. eauto.
  - destruct (exp <? 1); [|discriminate]. intros [= <-]. eauto.
Qed.

(** The minutes [parse_expiry] lets through: the default for a field that was
    not supplied, and a number that is at least 1 otherwise. *)
Lemma parse_expiry_inl (expiry : string) (d m : Z) :
  parse_expiry expiry d = inl m →
  (expiry = "" ∧ m = d) ∨ (expiry ≠ "" ∧ Atoi expiry = (m, None) ∧ 1 <= m).
Proof.
  unfold parse_expiry. destruct (decide _) as [Hne|He].
  - destruct (Atoi expiry) as [exp [e|]]; [discriminate|].
    destruct (exp <? 1) eqn:Hlt; [discriminate|].
    intros [= <-]. apply Z.ltb_ge in Hlt. right. done.
  - intros [= <-]. left. split; [|done].
    destruct (decide (expiry = "")); [done|]. by destruct He.
Qed.

(** C3. [createHandler] answers 400 (a validation error) when the [url]
    field is empty, and when the [expiry] field is supplied and either does
    not parse as a number or parses to a number below 1; in each of these
    cases the handler leaves the world, and with it the store, as it was. *)
Theorem createHandler_validation (c : Ctx) (shortCodeLength : Z) (w : World) :
  FormValue c "url" "" = ""
  ∨ (FormValue c "expiry" "" ≠ ""
     ∧ ((Atoi (FormValue c "expiry" "")).2 ≠ None
        ∨ (Atoi (FormValue c "expiry" "")).1 < 1)) →
  ∃ body, createHandler c shortCodeLength w = Done (JSON StatusBadRequest body) w.
Proof.
  intros H. unfold createHandler.
  destruct (decide (FormValue c "url" "" = "")) as [|Hurl]; [munfold; eauto|].
  destruct H as [H|[Hexp H]]; [done|].
  unfold parse_expiry. destruct (decide _); [|done].
  destruct (Atoi (FormValue c "expiry" "")) as [exp [e|]]; cbn in H.
  - munfold. eauto.
  - destruct H as [H|H]; [done|].
    apply Z.ltb_lt in H. rewrite H. munfold. eauto.
Qed.

Lemma createHandler_validation_witness :
  let w := mkWorld {[ "abc" := mkItem "https://a.com" 0 ]} 1700000000000000000
             [] [Byte.x01] in
  (∃ body, createHandler (mkCtx ∅ {[ "url" := "" ]}) 6 w
           = Done (JSON StatusBadRequest body) w)
  ∧ (∃ body, createHandler
               (mkCtx ∅ {[ "url" := "https://x.com"; "expiry" := "-1" ]}) 6 w
             = Done (JSON StatusBadRequest body) w)
  ∧ (∃ body, createHandler
               (mkCtx ∅ {[ "url" := "https://x.com"; "expiry" := "abc" ]}) 6 w
             = Done (JSON StatusBadRequest body) w).
Proof.
  cbv zeta. split; [|split].
  - apply createHandler_validation. left. reflexivity.
  - apply createHandler_validation. right. split; [discriminate|].
    right. vm_compute. reflexivity.
  - apply createHandler_validation. right. split; [discriminate|].
    left. discriminate.
Defined.

(** The last step of [createHandler]: storing the url under the code. *)
Lemma createHandler_store (code url : string) (m : Z) (w0 w1 : World)
    (body : gmap string string) :
  (err ← KV_Set code url m;
   match err with
   | Some _ => mret (SendStatus StatusInternalServerError)
   | None => mret (JSON StatusCreated {[ "short_code" := code ]})
   end) w0 = Done (JSON StatusCreated body) w1 →
  body = {[ "short_code" := code ]}
  ∧ store w1 = <[code := mkItem url (Set_expiresAt (clock w0) m)]> (store w0)
  ∧ clock w1 = clock w0.
Proof.
  unfold mbind, M_bind.
  destruct (KV_Set_inv code url m w0) as (err & w' & -> & Hck & _ & Hst).
  destruct err as [e|]; [discriminate|].
  munfold. by intros [= <- <-].
Qed.

(** A 201 response of [createHandler]: the request was valid, the response
    carries the code under which the url was stored, and that code is the
    [custom] field when one was supplied. *)
Lemma createHandler_Created (c : Ctx) (shortCodeLength : Z) (w w1 : World)
    (body : gmap string string) :
  createHandler c shortCodeLength w = Done (JSON StatusCreated body) w1 →
  ∃ code m,
    body = {[ "short_code" := code ]}
    ∧ FormValue c "url" "" ≠ ""
    ∧ parse_expiry (FormValue c "expiry" "") 0 = inl m
    ∧ (FormValue c "custom" "" ≠ "" → code = FormValue c "custom" "")
    ∧ store w1 = <[code := mkItem (FormValue c "url" "")
                             (Set_expiresAt (clock w) m)]> (store w)
    ∧ clock w1 = clock w.
Proof.
  unfold createHandler.
  destruct (decide (FormValue c "url" "" = "")) as [|Hurl]; [discriminate|].
  destruct (parse_expiry _ 0) as [m|resp] eqn:Hexp.
  2:{ destruct (parse_expiry_inr _ _ _ Hexp) as [b ->]. discriminate. }
  destruct (decide (FormValue c "custom" "" = "")) as [Hc|Hc].
  - unfold mbind at 1. unfold M_bind at 1.
    destruct (GenerateRandomString shortCodeLength w)
      as [[code err] w0|msg] eqn:Hcode; [|discriminate].
    destruct (GenerateRandomString_same_db _ _ _ _ Hcode) as (Hs0 & Hc0 & _).
    destruct err as [e|]; [discriminate|].
    intros H. apply createHandler_store in H as (-> & Hst & Hck).
    exists code, m. rewrite Hst, Hck, Hs0, Hc0. split_and!; auto. done.
  - unfold mbind at 1. unfold M_bind at 1. unfold mret at 1. unfold M_ret at 1.
    intros H. apply createHandler_store in H as (-> & Hst & Hck).
    exists (FormValue c "custom" ""), m. split_and!; auto.
Qed.

(** On a quiet engine [redirectHandler] redirects to the value of a live
    record and answers 404 when there is none. *)
Lemma redirectHandler_quiet (c : Ctx) (w : World) :
  no_faults 3 w →
  ∃ w',
    redirectHandler c w =
      Done (if live w (Params c "shortcode")
            then RedirectTo (default "" (item_value <$> store w !! Params c "shortcode"))
            else SendStatus StatusNotFound) w'
    ∧ store w' = store w.
Proof.
  intros Hq. unfold redirectHandler, mbind at 1. unfold M_bind at 1.
  rewrite (KV_Exists_quiet 2 _ _ Hq).
  destruct (live w (Params c "shortcode")) eqn:Hlive; cbn [negb].
  - unfold live in Hlive.
    destruct (store w !! Params c "shortcode") as [it|] eqn:Hit; [|done].
    unfold mbind, M_bind.
    rewrite (KV_Get_quiet 0 _ _ it).
    + munfold. eexists. split; [done|]. by rewrite !store_pop_fault.
    + by apply no_faults_pop.
    + by rewrite store_pop_fault.
    + rewrite live_pop_fault. unfold live. by rewrite Hit.
  - munfold. eexists. split; [done|]. by rewrite store_pop_fault.
Qed.

(** For the 404 answer the single lookup of [Exists] is all that has to go
    through. *)
Lemma redirectHandler_not_live (c : Ctx) (w : World) :
  no_faults 1 w →
  live w (Params c "shortcode") = false →
  redirectHandler c w = Done (SendStatus StatusNotFound) (pop_fault w).
Proof.
  intros Hq Hlive. unfold redirectHandler, mbind, M_bind.
  by rewrite (KV_Exists_quiet 0 _ _ Hq), Hlive.
Qed.

Lemma short_code_inj (code code' : string) :
  ({[ "short_code" := code ]} : gmap string string) = {[ "short_code" := code' ]} →
  code = code'.
Proof.
  intros H. apply (f_equal (λ m : gmap string string, m !! "short_code")) in H.
  rewrite !lookup_singleton_eq in H. by injection H.
Qed.

(** [KV.Exists] always returns and changes nothing but the pending faults. *)
Lemma KV_Exists_inv (key : string) (w : World) :
  ∃ b err w',
    KV_Exists key w = Done (b, err) w'
    ∧ store w' = store w ∧ clock w' = clock w
    ∧ (b = true → live w key = true).
Proof.
  destruct w as [st ck fs en]. unfold live. kv_unfold. cbn.
  destruct fs as [|[msg|] fs]; cbn; eauto 10;
    (destruct (st !! key) as [it|]; cbn;
     [destruct (isDeletedOrExpired _ _); cbn|]; eauto 10).
Qed.

(** A 204 response of [deleteHandler]: the key is gone from the store. *)
Lemma deleteHandler_NoContent (c : Ctx) (w w' : World) :
  deleteHandler c w = Done (SendStatus StatusNoContent) w' →
  store w' = delete (Params c "shortcode") (store w).
Proof.
  unfold deleteHandler, mbind at 1. unfold M_bind at 1.
  destruct (KV_Exists_inv (Params c "shortcode") w)
    as (b & err & w0 & -> & Hst & _ & _).
  destruct err as [e|]; [discriminate|].
  destruct b; cbn [negb]; [|discriminate].
  unfold mbind, M_bind.
  destruct (KV_Delete_inv (Params c "shortcode") w0)
    as (err & w1 & -> & _ & _ & Hst1).
  destruct err as [e|]; [discriminate|].
  munfold. intros [= <-]. by rewrite Hst1, Hst.
Qed.

(** On a quiet engine [redirectHandler] redirects to the url of a live
    record. *)
Lemma redirectHandler_live (c : Ctx) (w : World) (url : string) :
  item_value <$> store w !! Params c "shortcode" = Some url →
  live w (Params c "shortcode") = true →
  no_faults 3 w →
  ∃ w', redirectHandler c w = Done (RedirectTo url) w'.
Proof.
  intros Hurl Hlive Hq.
  destruct (redirectHandler_quiet c w Hq) as (w' & Hr & _).
  rewrite Hlive, Hurl in Hr. cbn in Hr. eauto.
Qed.





(** On a quiet engine [deleteHandler] answers 404 for a code without live
    record, having done nothing but the lookup. *)
Lemma deleteHandler_not_live (c : Ctx) (w : World) :
  no_faults 1 w →
  live w (Params c "shortcode") = false →
  deleteHandler c w = Done (SendStatus StatusNotFound) (pop_fault w).
Proof.
  intros Hq Hlive. unfold deleteHandler, mbind, M_bind.
  by rewrite (KV_Exists_quiet 0 _ _ Hq), Hlive.
Qed.

Lemma live_absent (w : World) (key : string) :
  store w !! key = None → live w key = false.
Proof. unfold live. by intros ->. Qed.

(** On a quiet engine [deleteHandler] answers 204 for a code with a live
    record and removes the record. *)
Lemma deleteHandler_live (c : Ctx) (w : World) :
  no_faults 3 w →
  live w (Params c "shortcode") = true →
  ∃ w', deleteHandler c w = Done (SendStatus StatusNoContent) w'
        ∧ store w' = delete (Params c "shortcode") (store w).
Proof.
  intros Hq Hlive. unfold deleteHandler, mbind at 1. unfold M_bind at 1.
  rewrite (KV_Exists_quiet 2 _ _ Hq), Hlive. cbn [negb].
  unfold mbind, M_bind.
  rewrite (KV_Delete_quiet 0) by (by apply no_faults_pop).
  munfold. eexists. split; [done|].
  cbn [store set_store]. by rewrite store_pop_fault.
Qed.

(** C7. Delete then resolve. After [createHandler] has stored a url under a
    custom code (201), [deleteHandler] for that code, with the store left as
    it is, the record not yet expired and the engine's operations going
    through, answers 204 and removes the record, and [redirectHandler] for
    the code then answers 404 as long as the store is left as it is and the
    lookup goes through. Any 204 of [deleteHandler] is followed by such a
    404; and in any world [redirectHandler] answers 404 for a code that has
    no live record. *)
Theorem delete_then_resolve :
  (∀ (c cd c' : Ctx) (shortCodeLength : Z) (w w1 w1' : World)
     (code : string) (body : gmap string string),
      code ≠ "" →
      FormValue c "custom" "" = code →
      Params cd "shortcode" = code →
      Params c' "shortcode" = code →
      createHandler c shortCodeLength w = Done (JSON StatusCreated body) w1 →
      store w1' = store w1 →
      (∀ it, store w1 !! code = Some it →
             isDeletedOrExpired (item_expiresAt it) (clock w1') = false) →
      no_faults 3 w1' →
      ∃ w2,
        deleteHandler cd w1' = Done (SendStatus StatusNoContent) w2
        ∧ store w2 = delete code (store w1)
        ∧ ∀ w2', store w2' = store w2 →
                 no_faults 1 w2' →
                 redirectHandler c' w2'
                   = Done (SendStatus StatusNotFound) (pop_fault w2'))
  ∧ (∀ (cd c' : Ctx) (w1' w2 w2' : World),
      Params c' "shortcode" = Params cd "shortcode" →
      deleteHandler cd w1' = Done (SendStatus StatusNoContent) w2 →
      store w2' = store w2 →
      no_faults 1 w2' →
      redirectHandler c' w2'
        = Done (SendStatus StatusNotFound) (pop_fault w2'))
  ∧ (∀ (c' : Ctx) (w : World),
      live w (Params c' "shortcode") = false →
      no_faults 1 w →
      redirectHandler c' w = Done (SendStatus StatusNotFound) (pop_fault w)).
Proof.
  split_and!.
  - intros c cd c' len w w1 w1' code body Hne Hcustom Hcd Hc' Hcreate Hst
      Hexp Hq.
    apply createHandler_Created in Hcreate
      as (code0 & m & _ & _ & _ & Hcode & Hw1 & _).
    rewrite Hcustom in Hcode. specialize (Hcode Hne). subst code0.
    assert (Hlive : live w1' (Params cd "shortcode") = true).
    { unfold live. rewrite Hcd, Hst, Hw1, lookup_insert_eq.
      rewrite (Hexp (mkItem (FormValue c "url" "")
                       (Set_expiresAt (clock w) m))); [done|].
      by rewrite Hw1, lookup_insert_eq. }
    destruct (deleteHandler_live cd w1' Hq Hlive) as (w2 & Hdel & Hw2).
    exists w2. rewrite Hcd, Hst in Hw2. split_and!; [done|done|].
    intros w2' Hst2 Hq2. apply redirectHandler_not_live; [done|].
    apply live_absent. by rewrite Hc', Hst2, Hw2, lookup_delete_eq.
  - intros cd c' w1' w2 w2' Hc' Hdel Hst Hq.
    apply deleteHandler_NoContent in Hdel.
    apply redirectHandler_not_live; [done|].
    apply live_absent. by rewrite Hc', Hst, Hdel, lookup_delete_eq.
  - intros c' w Hlive Hq. by apply redirectHandler_not_live.
Qed.

Lemma delete_then_resolve_witness :
  let w1 := mkWorld {[ "xyz" := mkItem "https://x.com" 0 ]}
              1700000000000000000 [] [] in
  let w2 := mkWorld ∅ 1700000000000000000 [] [] in
  let wx := mkWorld {[ "old" := mkItem "https://o.com" 1600000000 ]}
              1700000000000000000 [] [] in
  deleteHandler (mkCtx {[ "shortcode" := "xyz" ]} ∅) w1
    = Done (SendStatus StatusNoContent) w2
  ∧ redirectHandler (mkCtx {[ "shortcode" := "xyz" ]} ∅) w2
    = Done (SendStatus StatusNotFound) (pop_fault w2)
  ∧ redirectHandler (mkCtx {[ "shortcode" := "old" ]} ∅) wx
    = Done (SendStatus StatusNotFound) (pop_fault wx).
Proof.
  cbv zeta.
  destruct (proj1 delete_then_resolve
              (mkCtx ∅ {[ "custom" := "xyz"; "url" := "https://x.com" ]})
              (mkCtx {[ "shortcode" := "xyz" ]} ∅)
              (mkCtx {[ "shortcode" := "xyz" ]} ∅) 6
              (mkWorld ∅ 1700000000000000000 [] [])
              (mkWorld {[ "xyz" := mkItem "https://x.com" 0 ]}
                 1700000000000000000 [] [])
              (mkWorld {[ "xyz" := mkItem "https://x.com" 0 ]}
                 1700000000000000000 [] [])
              "xyz" {[ "short_code" := "xyz" ]})
    as (w2 & Hdel & Hst & Hres).
  - discriminate.
  - reflexivity.
  - reflexivity.
  - reflexivity.
  - vm_compute. reflexivity.
  - reflexivity.
  - intros it Hit. vm_compute in Hit. injection Hit as <-. reflexivity.
  - apply Forall_nil_2.
  - split_and!.
    + rewrite Hdel. vm_compute in Hdel. injection Hdel as <-. reflexivity.
    + apply (Hres (mkWorld ∅ 1700000000000000000 [] []));
        [rewrite Hst; vm_compute; reflexivity | apply Forall_nil_2].
    + apply (proj2 (proj2 delete_then_resolve)).
      * vm_compute. reflexivity.
      * apply Forall_nil_2.
Defined.

(** C8. [deleteHandler] for a code that has no live record answers 404, not
    500, when the lookup goes through, and leaves the store as it was; and
    [KV.Delete] of a key that is not in the store returns no error on a
    quiet engine and leaves the store as it was. *)
Theorem remove_absent :
  (∀ (c : Ctx) (w : World),
      no_faults 1 w →
      live w (Params c "shortcode") = false →
      ∃ w', deleteHandler c w = Done (SendStatus StatusNotFound) w'
            ∧ store w' = store w)
  ∧ (∀ (key : string) (w : World),
      no_faults 2 w →
      store w !! key = None →
      ∃ w', KV_Delete key w = Done None w' ∧ store w' = store w).
Proof.
  split.
  - intros c w Hq Hlive. exists (pop_fault w).
    split; [by apply deleteHandler_not_live | apply store_pop_fault].
  - intros key w Hq Hkey. eexists. split; [apply (KV_Delete_quiet 0), Hq|].
    cbn [store set_store]. by apply delete_id.
Qed.

Lemma remove_absent_witness :
  let w := mkWorld {[ "abc" := mkItem "https://a.com" 0 ]}
             1700000000000000000 [] [] in
  (∃ w', deleteHandler (mkCtx {[ "shortcode" := "nope" ]} ∅) w
         = Done (SendStatus StatusNotFound) w' ∧ store w' = store w)
  ∧ (∃ w', KV_Delete "nope" w = Done None w' ∧ store w' = store w).
Proof.
  cbv zeta. split.
  - apply (proj1 remove_absent); [apply Forall_nil_2 | reflexivity].
  - apply (proj2 remove_absent); [apply Forall_nil_2 | reflexivity].
Defined.

(** ** Configuration *)

(** The short-code length [main] uses is whatever integer the variable
    SHORT_CODE_LENGTH parses to, be it positive, zero or negative; it is 6
    when the variable is unset or does not parse. *)
Theorem main_shortCode_spec (env : gmap string string) :
  (env !! "SHORT_CODE_LENGTH" = None → main_shortCode env = 6)
  ∧ (∀ v, env !! "SHORT_CODE_LENGTH" = Some v →
          (Atoi v).2 ≠ None → main_shortCode env = 6)
  ∧ (∀ v n, env !! "SHORT_CODE_LENGTH" = Some v →
            Atoi v = (n, None) → main_shortCode env = n).
Proof.
  unfold main_shortCode, os_Getenv. split_and!.
  - intros ->. reflexivity.
  - intros v -> Herr. cbn [default from_option id].
    destruct (Atoi v) as [n [e|]]; [reflexivity|]. by destruct Herr.
  - intros v n -> Hv. cbn [default from_option id]. by rewrite Hv.
Qed.

Lemma main_shortCode_spec_witness :
  main_shortCode ∅ = 6
  ∧ main_shortCode {[ "SHORT_CODE_LENGTH" := "six" ]} = 6
  ∧ main_shortCode {[ "SHORT_CODE_LENGTH" := "8" ]} = 8
  ∧ main_shortCode {[ "SHORT_CODE_LENGTH" := "-3" ]} = -3.
Proof.
  split_and!.
  - apply (proj1 (main_shortCode_spec ∅)). reflexivity.
  - apply (proj1 (proj2 (main_shortCode_spec _)) "six");
      [reflexivity | discriminate].
  - apply (proj2 (proj2 (main_shortCode_spec _)) "8"); reflexivity.
  - apply (proj2 (proj2 (main_shortCode_spec _)) "-3"); reflexivity.
Defined.

(** A configured value of "0" parses, so the length used is 0, which is not
    positive. *)
Lemma main_shortCode_not_positive :
  main_shortCode {[ "SHORT_CODE_LENGTH" := "0" ]} = 0
  ∧ ¬ (0 < main_shortCode {[ "SHORT_CODE_LENGTH" := "0" ]}).
Proof. split; [reflexivity|]. vm_compute. discriminate. Qed.

(** ** Lengths that are not positive *)

Lemma GenerateRandomString_zero (w : World) :
  GenerateRandomString 0 w = Done ("", None) w.
Proof. reflexivity. Qed.

Lemma GenerateRandomString_negative (n : Z) (w : World) :
  n < 0 → GenerateRandomString n w = Panic "makeslice: len out of range".
Proof. intros Hn. apply GenerateRandomString_out_of_range. by left. Qed.

(** With a length of 0 and no custom code [createHandler], for a valid
    request, generates the empty code, which the engine does not take as a
    key: the answer is 500, not 400, and the world is as it was. *)
Lemma createHandler_zero_length (c : Ctx) (m : Z) (w : World) :
  FormValue c "custom" "" = "" →
  FormValue c "url" "" ≠ "" →
  parse_expiry (FormValue c "expiry" "") 0 = inl m →
  createHandler c 0 w = Done (SendStatus StatusInternalServerError) w.
Proof.
  intros Hcustom Hurl Hexp. unfold createHandler. rewrite Hexp, Hcustom.
  destruct (decide (FormValue c "url" "" = "")); [done|].
  destruct (decide ("" = "")); [|done].
  unfold mbind at 1. unfold M_bind at 1.
  rewrite GenerateRandomString_zero. unfold mbind, M_bind.
  by rewrite (KV_Set_rejected "" _ _ _ ErrEmptyKey).
Qed.

(** With a negative length and no custom code [createHandler], for a valid
    request, panics in the generator. *)
Lemma createHandler_negative_length (c : Ctx) (m n : Z) (w : World) :
  FormValue c "custom" "" = "" →
  FormValue c "url" "" ≠ "" →
  parse_expiry (FormValue c "expiry" "") 0 = inl m →
  n < 0 →
  createHandler c n w = Panic "makeslice: len out of range".
Proof.
  intros Hcustom Hurl Hexp Hn. unfold createHandler. rewrite Hexp, Hcustom.
  destruct (decide (FormValue c "url" "" = "")); [done|].
  destruct (decide ("" = "")); [|done].
  unfold mbind, M_bind. by rewrite GenerateRandomString_negative.
Qed.

(** C9. The configured length is not made positive by the code, although
    the sibling [expiry] field is checked to be at least 1: [main] falls
    back to 6 only when SHORT_CODE_LENGTH is unset or does not parse. With
    "0" the length is 0 and a valid request without custom code is answered
    500, the empty code being no key for the engine; with "-3" the length
    is -3 and the same request makes the handler panic; an [expiry] of "0"
    is answered 400. *)
Theorem main_shortCode_unchecked :
  let r := mkRequest ∅ (mkCtx ∅ {[ "url" := "https://example.com" ]}) in
  let r0 := mkRequest ∅ (mkCtx ∅ {[ "url" := "https://example.com";
                                    "expiry" := "0" ]}) in
  let w := mkWorld ∅ 1700000000000000000 [] [Byte.x01; Byte.x02] in
  main_shortCode ∅ = 6
  ∧ main_shortCode {[ "SHORT_CODE_LENGTH" := "0" ]} = 0
  ∧ main_app {[ "SHORT_CODE_LENGTH" := "0" ]} PostShorten r w
    = Done (SendStatus StatusInternalServerError) w
  ∧ main_shortCode {[ "SHORT_CODE_LENGTH" := "-3" ]} = -3
  ∧ main_app {[ "SHORT_CODE_LENGTH" := "-3" ]} PostShorten r w
    = Panic "makeslice: len out of range"
  ∧ main_app ∅ PostShorten r0 w
    = Done (JSON StatusBadRequest
              {[ "error" := "expiry must be greater than 0" ]}) w.
Proof. cbv zeta. split_and!; vm_compute; reflexivity. Qed.

(** C10. [GenerateRandomString n] returns only for [n >= 0] (namely for the
    [n] from 0 up to the limit of [make]): for [n = 0] it returns the empty
    string and no error, and for a negative [n] the allocation of the
    buffer panics. Nothing checks that the length is positive: [main]
    passes on a configured "0" or "-1" as 0 or -1, and [createHandler],
    given a valid request without custom code, does not answer a length of
    0 with a 400 (the empty code is generated and the engine's refusal of
    that key is answered 500) and panics on a negative length. *)
Theorem GenerateRandomString_domain :
  (∀ w, GenerateRandomString 0 w = Done ("", None) w)
  ∧ (∀ n w, n < 0 → ∃ msg, GenerateRandomString n w = Panic msg)
  ∧ (∀ n w, (∃ res w', GenerateRandomString n w = Done res w')
            ↔ 0 <= n <= maxAlloc)
  ∧ main_shortCode {[ "SHORT_CODE_LENGTH" := "0" ]} = 0
  ∧ main_shortCode {[ "SHORT_CODE_LENGTH" := "-1" ]} = -1
  ∧ (∀ (c : Ctx) (m : Z) (w : World),
      FormValue c "custom" "" = "" →
      FormValue c "url" "" ≠ "" →
      parse_expiry (FormValue c "expiry" "") 0 = inl m →
      createHandler c 0 w = Done (SendStatus StatusInternalServerError) w
      ∧ ∀ n, n < 0 → ∃ msg, createHandler c n w = Panic msg).
Proof.
  split_and!.
  - apply GenerateRandomString_zero.
  - intros n w Hn. eexists. by apply GenerateRandomString_negative.
  - intros n w. split.
    + intros (res & w' & H). by apply GenerateRandomString_Done in H as [Hn _].
    + intros Hn. rewrite GenerateRandomString_in_range by done.
      apply GenerateRandomString_loop_total.
  - reflexivity.
  - reflexivity.
  - intros c m w Hcustom Hurl Hexp. split.
    + by apply (createHandler_zero_length c m).
    + intros n Hn. eexists. by apply (createHandler_negative_length c m).
Qed.

Lemma GenerateRandomString_domain_witness :
  let w := mkWorld ∅ 1700000000000000000 [] [Byte.x07] in
  let c := mkCtx ∅ {[ "url" := "https://example.com" ]} in
  (∃ msg, GenerateRandomString (-1) w = Panic msg)
  ∧ (∃ res w', GenerateRandomString 1 w = Done res w')
  ∧ createHandler c 0 w = Done (SendStatus StatusInternalServerError) w
  ∧ (∃ msg, createHandler c (-1) w = Panic msg).
Proof.
  cbv zeta.
  pose proof GenerateRandomString_domain as (_ & Hneg & Htot & _ & _ & Hcreate).
  split_and!.
  - apply Hneg. lia.
  - apply Htot. unfold maxAlloc. lia.
  - refine (proj1 (Hcreate _ 0 _ _ _ _));
      [reflexivity | discriminate | reflexivity].
  - refine (proj2 (Hcreate _ 0 _ _ _ _) (-1) _);
      [reflexivity | discriminate | reflexivity | lia].
Defined.

(** * Further properties of the code *)

(** ** The generator as a function of the random bytes *)

Lemma rand_Int_loop_letters (r : list byte) :
  rand_Int_loop 62 1 63 0 0 r =
    match next_accepted r with
    | Some (b, r') => ((Z.land (byte_val b) 63, None), r')
    | None => ((0, Some ErrUnexpectedEOF), [])
    end.
Proof.
  induction r as [|b r IH]; [done|].
  cbn [rand_Int_loop next_accepted]. unfold accepted.
  destruct (decide (1%nat = 1%nat)); [|done].
  by destruct (Z.land (byte_val b) 63 <? 62).
Qed.

(** [rand.Int] for the 62 letters skips the bytes it does not accept and
    returns the low six bits of the first one it accepts. *)
Lemma rand_Int_letters (w : World) :
  rand_Int (Z.of_nat (String.length letters)) w =
    match next_accepted (entropy w) with
    | Some (b, r') => Done (Z.land (byte_val b) 63, None) (set_entropy r' w)
    | None => Done (0, Some ErrUnexpectedEOF) (set_entropy [] w)
    end.
Proof.
  rewrite letters_length. unfold rand_Int.
  change (Z.of_nat 62 <=? 0) with false. cbv iota.
  change (Z.of_nat 62 - 1 =? 0) with false. cbv iota zeta.
  change (Z.log2 (Z.of_nat 62 - 1) + 1) with 6.
  change (6 =? 0) with false. cbv iota.
  change (6 mod 8 =? 0) with false. cbv iota.
  change (Z.to_nat ((6 + 7) / 8)) with 1%nat.
  change (2 ^ (6 mod 8) - 1) with 63.
  change (Z.of_nat 62) with 62.
  munfold. rewrite rand_Int_loop_letters.
  by destruct (next_accepted (entropy w)) as [[b r']|].
Qed.

Lemma next_accepted_Some (r r' : list byte) (b : byte) :
  next_accepted r = Some (b, r') →
  accepted b = true
  ∧ filter (λ b, accepted b = true) r = b :: filter (λ b, accepted b = true) r'
  ∧ ∀ n, after_accepted (S n) r = after_accepted n r'.
Proof.
  induction r as [|a r IH]; [done|]. cbn [next_accepted].
  destruct (accepted a) eqn:Ha.
  - intros [= -> ->]. split; [done|]. split.
    + by rewrite filter_cons_True.
    + intros n. cbn [after_accepted]. by rewrite Ha.
  - intros H. destruct (IH H) as (Hb & Hf & Hafter). split; [done|]. split.
    + rewrite filter_cons_False; [done|]. by rewrite Ha.
    + intros n. cbn [after_accepted]. rewrite Ha. apply Hafter.
Qed.

Lemma next_accepted_None (r : list byte) :
  next_accepted r = None → filter (λ b, accepted b = true) r = [].
Proof.
  induction r as [|a r IH]; [done|]. cbn [next_accepted].
  destruct (accepted a) eqn:Ha; [done|].
  intros H. rewrite filter_cons_False; [by apply IH|]. by rewrite Ha.
Qed.

Lemma after_accepted_0 (r : list byte) : after_accepted 0 r = r.
Proof. by destruct r. Qed.

Lemma symbol_of_accepted (b : byte) :
  accepted b = true → ∃ ch, symbol_of b = Some ch ∧ alphabet ch = true.
Proof.
  unfold accepted, symbol_of. intros H. apply Z.ltb_lt in H.
  apply letters_get. split; [|done].
  apply Z.land_nonneg. right. lia.
Qed.

(** The loop of [GenerateRandomString], run to its end: it fills the
    remaining [todo] positions with the symbols of the next [todo] accepted
    bytes, or fails when the reader holds fewer. *)
Lemma GenerateRandomString_loop_spec (todo : nat) :
  ∀ (i : nat) (ret : list ascii) (w : World),
    length ret = (i + todo)%nat →
    GenerateRandomString_loop todo i ret w =
      if decide (todo ≤ length (filter (λ b, accepted b = true) (entropy w)))%nat
      then Done (string_of_list_ascii
                   (take i ret ++
                    omap symbol_of
                      (take todo (filter (λ b, accepted b = true) (entropy w)))),
                 None)
             (set_entropy (after_accepted todo (entropy w)) w)
      else Done ("", Some ErrUnexpectedEOF) (set_entropy [] w).
Proof.
  induction todo as [|todo IH]; intros i ret w Hlen.
  - cbn [GenerateRandomString_loop]. munfold.
    destruct (decide _) as [_|Hn]; [|lia].
    rewrite take_ge by lia. cbn. rewrite app_nil_r, after_accepted_0.
    by destruct w.
  - cbn [GenerateRandomString_loop]. unfold mbind, M_bind.
    rewrite rand_Int_letters.
    destruct (next_accepted (entropy w)) as [[b r']|] eqn:Hnext.
    + destruct (next_accepted_Some _ _ _ Hnext) as (Hb & Hf & Hafter).
      destruct (symbol_of_accepted b Hb) as (ch & Hch & _).
      cbv beta iota. fold (symbol_of b). rewrite Hch.
      rewrite IH by (rewrite length_insert; lia).
      cbn [entropy set_entropy]. rewrite Hf, Hafter.
      cbn [length take omap list_omap]. rewrite Hch.
      rewrite (take_S_r _ _ ch) by (apply list_lookup_insert_eq; lia).
      rewrite take_insert_ge by lia. rewrite <- app_assoc. cbn [app].
      unfold set_entropy. cbn [store clock faults entropy].
      destruct (decide _), (decide _); try lia; done.
    + rewrite (next_accepted_None _ Hnext). munfold.
      destruct (decide _) as [Hn|_]; [cbn in Hn; lia|done].
Qed.

(** X1. [GenerateRandomString n], for an [n] from 0 up to the limit of
    [make], is determined by the bytes the sampler accepts: it returns the
    symbols of the first [n] accepted bytes and leaves the reader just
    behind the last of them, and when the reader holds fewer than [n]
    accepted bytes it returns the empty string with the reader's error. *)
Theorem GenerateRandomString_spec (n : Z) (w : World) :
  0 <= n <= maxAlloc →
  GenerateRandomString n w =
    if decide (Z.to_nat n ≤ length (filter (λ b, accepted b = true) (entropy w)))%nat
    then Done (string_of_list_ascii
                 (omap symbol_of
                    (take (Z.to_nat n)
                       (filter (λ b, accepted b = true) (entropy w)))),
               None)
           (set_entropy (after_accepted (Z.to_nat n) (entropy w)) w)
    else Done ("", Some ErrUnexpectedEOF) (set_entropy [] w).
Proof.
  intros Hn. rewrite GenerateRandomString_in_range by done.
  rewrite GenerateRandomString_loop_spec by (by rewrite length_replicate).
  done.
Qed.

Lemma GenerateRandomString_spec_witness :
  GenerateRandomString 2
    (mkWorld ∅ 0 [] [Byte.xfe; Byte.x0a; Byte.x7f; Byte.x3d; Byte.x05])
  = Done ("Az", None) (mkWorld ∅ 0 [] [Byte.x05]).
Proof.
  rewrite (GenerateRandomString_spec 2) by (unfold maxAlloc; lia).
  vm_compute. reflexivity.
Defined.

Lemma all_bytes_complete (b : byte) : b ∈ all_bytes.
Proof. destruct b; refine (bool_decide_unpack _ _); vm_compute; exact I. Qed.

Lemma all_bytes_NoDup : NoDup all_bytes.
Proof. refine (bool_decide_unpack _ _). vm_compute. exact I. Qed.

(** X2. The sampling has no bias: of the 256 values a byte of the reader
    can take, exactly 4 make [GenerateRandomString 1] return any given symbol
    of [letters], and the 8 others are rejected. *)
Theorem GenerateRandomString_unbiased (ch : ascii) :
  ch ∈ list_ascii_of_string letters →
  length (filter (λ b, first_symbol b = Some (String ch "")) all_bytes) = 4%nat
  ∧ length (filter (λ b, first_symbol b = None) all_bytes) = 8%nat.
Proof.
  intros Hch. split.
  - revert ch Hch. apply Forall_forall.
    refine (bool_decide_unpack _ _). vm_compute. exact I.
  - vm_compute. reflexivity.
Qed.

Lemma GenerateRandomString_unbiased_witness :
  length (filter (λ b, first_symbol b = Some "Q") all_bytes) = 4%nat
  ∧ length (filter (λ b, first_symbol b = None) all_bytes) = 8%nat.
Proof.
  apply (GenerateRandomString_unbiased "Q"%char).
  refine (bool_decide_unpack _ _). vm_compute. exact I.
Defined.

(** ** The adapter *)

(** On the clock readings that fit an [int64] of nanoseconds, the engine's
    test for expiry compares Unix seconds. *)
Lemma isDeletedOrExpired_window (exp now : Z) :
  0 < exp →
  0 <= now < 2 ^ 63 →
  isDeletedOrExpired exp now = bool_decide (exp <= time_Unix now).
Proof.
  intros Hexp Hnow. unfold isDeletedOrExpired, uint64, time_Unix.
  destruct (exp =? 0) eqn:E; [apply Z.eqb_eq in E; lia|].
  assert (0 <= now / 1000000000 < 2 ^ 64).
  { split; [apply Z.div_pos; lia|].
    apply Z.div_lt_upper_bound; lia. }
  rewrite Z.mod_small by done.
  destruct (Z.leb_spec exp (now / 1000000000)).
  - by rewrite bool_decide_eq_true_2.
  - rewrite bool_decide_eq_false_2; [done|lia].
Qed.

Lemma time_Unix_bounds (now : Z) :
  0 <= now < 2 ^ 63 → 0 <= time_Unix now < 9223372037.
Proof.
  intros H. unfold time_Unix. split; [apply Z.div_pos; lia|].
  apply Z.div_lt_upper_bound; lia.
Qed.

(** X3. [KV.Get] of a key that has no live record (absent or expired)
    returns the empty string and an error that wraps [ErrKeyNotFound]: it
    is recognised by [errors.Is] and is not equal to [ErrKeyNotFound]
    itself. *)
Theorem KV_Get_missing (key : string) (w : World) :
  no_faults 1 w →
  live w key = false →
  ∃ e, KV_Get key w = Done ("", Some e) (pop_fault w)
       ∧ errors_Is (Some e) ErrKeyNotFound = true
       ∧ e ≠ ErrKeyNotFound.
Proof.
  intros Hq Hlive. exists (Errorf "getting value" ErrKeyNotFound).
  split; [|done].
  unfold KV_Get, db_View, mbind, M_bind.
  by rewrite (txn_Get_quiet 0 _ _ Hq), Hlive.
Qed.

Lemma KV_Get_missing_witness :
  let w := mkWorld {[ "old" := mkItem "https://o.com" 1600000000 ]}
             1700000000000000000 [] [] in
  ∃ e, KV_Get "old" w = Done ("", Some e) (pop_fault w)
       ∧ errors_Is (Some e) ErrKeyNotFound = true
       ∧ e ≠ ErrKeyNotFound.
Proof.
  cbv zeta. apply KV_Get_missing; [apply Forall_nil_2 | reflexivity].
Defined.

(** X4. Round trip through the adapter: a value stored by [KV.Set] without
    time-to-live is what [KV.Get] returns for the key at any later time,
    as long as the record is left in place and the engine's reads go
    through. *)
Theorem KV_Set_Get_roundtrip (key value : string) (w w1 w2 : World) :
  KV_Set key value 0 w = Done None w1 →
  store w2 !! key = store w1 !! key →
  no_faults 2 w2 →
  KV_Get key w2 = Done (value, None) (pop_fault (pop_fault w2)).
Proof.
  intros Hset Hsame Hq.
  destruct (KV_Set_inv key value 0 w) as (err & w' & Heq & _ & _ & Hst).
  rewrite Heq in Hset. injection Hset as -> ->.
  rewrite Hst, lookup_insert_eq in Hsame.
  apply (KV_Get_quiet 0 _ _ (mkItem value 0)); [done|done|].
  unfold live. by rewrite Hsame.
Qed.

Lemma KV_Set_Get_roundtrip_witness :
  let w2 := mkWorld {[ "k" := mkItem "v" 0 ]} 9000000000000000000 [] [] in
  KV_Get "k" w2 = Done ("v", None) (pop_fault (pop_fault w2)).
Proof.
  cbv zeta.
  apply (KV_Set_Get_roundtrip "k" "v" (mkWorld ∅ 1700000000000000000 [] [])
           (mkWorld {[ "k" := mkItem "v" 0 ]} 1700000000000000000 [] [])).
  - vm_compute. reflexivity.
  - reflexivity.
  - apply Forall_nil_2.
Defined.

(** X5. The time-to-live window: a record written by [KV.Set] with
    between 1 and 153722867 minutes, at a clock reading that fits an [int64]
    of nanoseconds, is seen by [KV.Exists] at a later such reading exactly
    while the Unix second of the reading is before the Unix second of the
    write plus 60 seconds per minute. *)
Theorem KV_Set_Exists_ttl (key value : string) (m : Z) (w w1 w2 : World) :
  1 <= m <= 153722867 →
  0 <= clock w < 2 ^ 63 →
  0 <= clock w2 < 2 ^ 63 →
  KV_Set key value m w = Done None w1 →
  store w2 !! key = store w1 !! key →
  no_faults 1 w2 →
  KV_Exists key w2 =
    Done (bool_decide (time_Unix (clock w2) < time_Unix (clock w) + 60 * m),
          None) (pop_fault w2).
Proof.
  intros Hm Hck Hck2 Hset Hsame Hq.
  destruct (KV_Set_inv key value m w) as (err & w' & Heq & _ & _ & Hst).
  rewrite Heq in Hset. injection Hset as -> ->.
  pose proof (time_Unix_bounds _ Hck) as Hu.
  rewrite Hst, lookup_insert_eq, Set_expiresAt_in_range in Hsame by lia.
  rewrite (KV_Exists_quiet 0 _ _ Hq). unfold live. rewrite Hsame.
  cbn [item_expiresAt]. rewrite isDeletedOrExpired_window by lia.
  do 2 f_equal. destruct (decide (time_Unix (clock w) + 60 * m <= time_Unix (clock w2))).
  - rewrite bool_decide_eq_true_2 by done.
    rewrite bool_decide_eq_false_2 by lia. done.
  - rewrite bool_decide_eq_false_2 by done.
    rewrite bool_decide_eq_true_2 by lia. done.
Qed.

Lemma KV_Set_Exists_ttl_witness :
  let w1 := mkWorld {[ "k" := mkItem "v" 1700000060 ]}
              1700000000500000000 [] [] in
  KV_Exists "k" (mkWorld (store w1) 1700000059999999999 [] [])
    = Done (true, None) (mkWorld (store w1) 1700000059999999999 [] [])
  ∧ KV_Exists "k" (mkWorld (store w1) 1700000060000000000 [] [])
    = Done (false, None) (mkWorld (store w1) 1700000060000000000 [] []).
Proof.
  cbv zeta. split.
  - refine (KV_Set_Exists_ttl "k" "v" 1
              (mkWorld ∅ 1700000000500000000 [] [])
              (mkWorld {[ "k" := mkItem "v" 1700000060 ]}
                 1700000000500000000 [] [])
              (mkWorld {[ "k" := mkItem "v" 1700000060 ]}
                 1700000059999999999 [] []) _ _ _ _ _ _).
    + lia.
    + cbn. lia.
    + cbn. lia.
    + vm_compute. reflexivity.
    + reflexivity.
    + apply Forall_nil_2.
  - refine (KV_Set_Exists_ttl "k" "v" 1
              (mkWorld ∅ 1700000000500000000 [] [])
              (mkWorld {[ "k" := mkItem "v" 1700000060 ]}
                 1700000000500000000 [] [])
              (mkWorld {[ "k" := mkItem "v" 1700000060 ]}
                 1700000060000000000 [] []) _ _ _ _ _ _).
    + lia.
    + cbn. lia.
    + cbn. lia.
    + vm_compute. reflexivity.
    + reflexivity.
    + apply Forall_nil_2.
Defined.

(** X6. [KV.Set] is atomic and local: whatever the engine does, it
    returns; when it returns an error the store is as it was, and when it
    returns none the record of every other key is as it was. Clock and
    random source are never touched. *)
Theorem KV_Set_frame (key value : string) (m : Z) (w : World) :
  ∃ err w',
    KV_Set key value m w = Done err w'
    ∧ (err ≠ None → store w' = store w)
    ∧ (∀ key', key' ≠ key → store w' !! key' = store w !! key')
    ∧ (err = None → item_value <$> store w' !! key = Some value)
    ∧ clock w' = clock w ∧ entropy w' = entropy w.
Proof.
  destruct (KV_Set_inv key value m w) as (err & w' & Heq & Hck & Hen & Hst).
  exists err, w'. split_and!; try done.
  - intros Herr. by destruct err.
  - intros key' Hne. destruct err; rewrite Hst; [done|].
    by rewrite lookup_insert_ne.
  - intros ->. by rewrite Hst, lookup_insert_eq.
Qed.

Lemma KV_Set_frame_witness :
  ∃ err w',
    KV_Set "k" "v" 5
      (mkWorld {[ "a" := mkItem "x" 0 ]} 1700000000000000000
         [None; Some "conflict"] []) = Done err w'
    ∧ err ≠ None ∧ store w' = {[ "a" := mkItem "x" 0 ]}.
Proof.
  destruct (KV_Set_frame "k" "v" 5
              (mkWorld {[ "a" := mkItem "x" 0 ]} 1700000000000000000
                 [None; Some "conflict"] []))
    as (err & w' & Heq & Hfail & _).
  exists err, w'. split; [exact Heq|].
  assert (Herr : err ≠ None).
  { vm_compute in Heq. injection Heq as <- _. discriminate. }
  split; [exact Herr | exact (Hfail Herr)].
Defined.

(** X7. After [KV.Delete] has returned no error the key is gone, whether
    or not it was there: [KV.Exists] answers [false] without error, and the
    records of all other keys are as they were. *)
Theorem KV_Delete_Exists (key : string) (w w1 : World) :
  KV_Delete key w = Done None w1 →
  (∀ key', key' ≠ key → store w1 !! key' = store w !! key')
  ∧ ∀ w2, store w2 !! key = store w1 !! key →
          no_faults 1 w2 →
          KV_Exists key w2 = Done (false, None) (pop_fault w2).
Proof.
  intros Hdel.
  destruct (KV_Delete_inv key w) as (err & w' & Heq & _ & _ & Hst).
  rewrite Heq in Hdel. injection Hdel as -> ->. split.
  - intros key' Hne. by rewrite Hst, lookup_delete_ne.
  - intros w2 Hsame Hq. rewrite (KV_Exists_quiet 0 _ _ Hq).
    rewrite live_absent; [done|]. by rewrite Hsame, Hst, lookup_delete_eq.
Qed.

Lemma KV_Delete_Exists_witness :
  let w1 := mkWorld {[ "a" := mkItem "x" 0 ]} 1700000000000000000 [] [] in
  KV_Exists "k" w1 = Done (false, None) (pop_fault w1).
Proof.
  cbv zeta.
  refine (proj2 (KV_Delete_Exists "k"
            (mkWorld {[ "a" := mkItem "x" 0; "k" := mkItem "v" 0 ]}
               1700000000000000000 [] [])
            (mkWorld {[ "a" := mkItem "x" 0 ]} 1700000000000000000 [] []) _)
            _ _ _).
  - vm_compute. reflexivity.
  - reflexivity.
  - apply Forall_nil_2.
Defined.

(** ** The handlers, whatever the engine does *)

(** [KV.Exists] changes nothing but the pending outcomes of the engine, and
    answers [true] only without error and for a live record. *)
Lemma KV_Exists_frame (key : string) (w : World) :
  ∃ b err w',
    KV_Exists key w = Done (b, err) w'
    ∧ store w' = store w ∧ clock w' = clock w ∧ entropy w' = entropy w
    ∧ (err = None → b = live w key).
Proof.
  destruct w as [st ck fs en]. unfold live. kv_unfold. cbn.
  destruct fs as [|[msg|] fs]; cbn;
    try (destruct (st !! key) as [it|]; cbn;
         [destruct (isDeletedOrExpired _ _); cbn|]);
    eexists _, _, _; split_and!; done.
Qed.

(** [KV.Get] never panics and changes nothing but the pending outcomes of
    the engine; a value returned without error is that of the live record. *)
Lemma KV_Get_frame (key : string) (w : World) :
  ∃ v err w',
    KV_Get key w = Done (v, err) w'
    ∧ store w' = store w ∧ clock w' = clock w ∧ entropy w' = entropy w
    ∧ (err = None →
       live w key = true ∧ item_value <$> store w !! key = Some v).
Proof.
  destruct w as [st ck fs en]. unfold live. kv_unfold. cbn.
  destruct fs as [|[msg|] fs]; cbn;
    try (destruct (st !! key) as [it|]; cbn;
         [destruct (isDeletedOrExpired _ _); cbn|]);
    try (destruct fs as [|[msg|] fs]; cbn);
    eexists _, _, _; split_and!; done.
Qed.

Lemma GenerateRandomString_returns (n : Z) (w : World) :
  0 <= n <= maxAlloc → ∃ res w', GenerateRandomString n w = Done res w'.
Proof.
  intros Hn. rewrite GenerateRandomString_in_range by done.
  apply GenerateRandomString_loop_total.
Qed.

(** X8. [createHandler] with a length from 0 up to the limit of [make],
    or with a custom code, always answers, and in one of three ways: 400
    with the world untouched; 500 with the store untouched; or 201 with a
    code under which the url of the request is then stored, the records of
    all other codes being as they were. *)
Theorem createHandler_outcomes (c : Ctx) (shortCodeLength : Z) (w : World) :
  0 <= shortCodeLength <= maxAlloc ∨ FormValue c "custom" "" ≠ "" →
  ∃ resp w',
    createHandler c shortCodeLength w = Done resp w'
    ∧ clock w' = clock w
    ∧ (((∃ body, resp = JSON StatusBadRequest body) ∧ w' = w)
       ∨ (resp = SendStatus StatusInternalServerError ∧ store w' = store w)
       ∨ (∃ code,
            resp = JSON StatusCreated {[ "short_code" := code ]}
            ∧ item_value <$> store w' !! code = Some (FormValue c "url" "")
            ∧ ∀ k, k ≠ code → store w' !! k = store w !! k)).
Proof.
  intros Hlen. unfold createHandler.
  destruct (decide (FormValue c "url" "" = "")) as [|Hurl].
  { munfold. eexists _, w. split; [done|]. split; [done|]. left. eauto. }
  destruct (parse_expiry _ 0) as [m|resp] eqn:Hexp.
  2:{ destruct (parse_expiry_inr _ _ _ Hexp) as [b ->].
      munfold. eexists _, w. split; [done|]. split; [done|]. left. eauto. }
  assert (Hstore : ∀ code w0,
    store w0 = store w → clock w0 = clock w →
    ∃ resp w',
      (err ← KV_Set code (FormValue c "url" "") m;
       match err with
       | Some _ => mret (SendStatus StatusInternalServerError)
       | None => mret (JSON StatusCreated {[ "short_code" := code ]})
       end) w0 = Done resp w'
      ∧ clock w' = clock w
      ∧ (((∃ body, resp = JSON StatusBadRequest body) ∧ w' = w)
         ∨ (resp = SendStatus StatusInternalServerError ∧ store w' = store w)
         ∨ (∃ code,
              resp = JSON StatusCreated {[ "short_code" := code ]}
              ∧ item_value <$> store w' !! code = Some (FormValue c "url" "")
              ∧ ∀ k, k ≠ code → store w' !! k = store w !! k))).
  { intros code w0 Hs0 Hc0. unfold mbind, M_bind.
    destruct (KV_Set_inv code (FormValue c "url" "") m w0)
      as (err & w' & -> & Hck & _ & Hst).
    destruct err as [e|]; munfold; eexists _, w';
      (split; [done|]); (split; [congruence|]).
    - right. left. split; [done|congruence].
    - right. right. exists code. split; [done|]. rewrite Hst. split.
      + by rewrite lookup_insert_eq.
      + intros k Hk. by rewrite lookup_insert_ne, Hs0. }
  destruct (decide (FormValue c "custom" "" = "")) as [Hc|Hc].
  - destruct Hlen as [Hlen|Hlen]; [|done].
    unfold mbind at 1. unfold M_bind at 1.
    destruct (GenerateRandomString_returns shortCodeLength w Hlen)
      as ([code err] & w0 & Hgen).
    rewrite Hgen.
    destruct (GenerateRandomString_same_db _ _ _ _ Hgen) as (Hs0 & Hc0 & _).
    destruct err as [e|].
    + munfold. eexists _, w0. split; [done|]. split; [done|].
      right. left. done.
    + by apply Hstore.
  - unfold mbind at 1. unfold M_bind at 1. unfold mret at 1. unfold M_ret at 1.
    by apply Hstore.
Qed.

Lemma createHandler_outcomes_witness :
  ∃ resp w',
    createHandler (mkCtx ∅ {[ "custom" := "abc"; "url" := "https://a.com" ]})
      (-4)
      (mkWorld {[ "k" := mkItem "v" 0 ]} 1700000000000000000
         [Some "disk full"] []) = Done resp w'
    ∧ resp = SendStatus StatusInternalServerError
    ∧ store w' = {[ "k" := mkItem "v" 0 ]}.
Proof.
  destruct (createHandler_outcomes
              (mkCtx ∅ {[ "custom" := "abc"; "url" := "https://a.com" ]}) (-4)
              (mkWorld {[ "k" := mkItem "v" 0 ]} 1700000000000000000
                 [Some "disk full"] []))
    as (resp & w' & Heq & _ & _).
  - right. discriminate.
  - exists resp, w'. split; [exact Heq|].
    vm_compute in Heq. injection Heq as <- <-. split; reflexivity.
Defined.

(** X9. With a custom code in the request [createHandler] does not call
    the generator: no byte of the random source is read, the configured
    length has no influence on the result, and a length that would make the
    generator panic does no harm. *)
Theorem createHandler_custom (c : Ctx) (len len' : Z) (w : World) :
  FormValue c "custom" "" ≠ "" →
  createHandler c len w = createHandler c len' w
  ∧ ∃ resp w', createHandler c len w = Done resp w' ∧ entropy w' = entropy w.
Proof.
  intros Hc. split.
  - unfold createHandler. by destruct (decide (FormValue c "custom" "" = "")).
  - unfold createHandler.
    destruct (decide (FormValue c "url" "" = "")); [munfold; eauto|].
    destruct (parse_expiry _ 0) as [m|resp]; [|munfold; eauto].
    destruct (decide (FormValue c "custom" "" = "")); [done|].
    unfold mbind at 1. unfold M_bind at 1. unfold mret at 1. unfold M_ret at 1.
    unfold mbind, M_bind.
    destruct (KV_Set_inv (FormValue c "custom" "") (FormValue c "url" "") m w)
      as (err & w' & -> & _ & Hen & _).
    destruct err; munfold; eauto.
Qed.

Lemma createHandler_custom_witness :
  let c := mkCtx ∅ {[ "custom" := "abc"; "url" := "https://a.com" ]} in
  let w := mkWorld ∅ 1700000000000000000 [] [Byte.x01; Byte.x02] in
  createHandler c (-1) w = createHandler c 6 w
  ∧ ∃ resp w', createHandler c (-1) w = Done resp w' ∧ entropy w' = entropy w.
Proof. cbv zeta. apply createHandler_custom. discriminate. Defined.

(** X10. A code that [createHandler] generates has the configured length
    and consists of symbols of the alphabet: when a request without custom
    code is answered 201, the code in the response has exactly
    [shortCodeLength] characters, all among [0-9A-Za-z]. *)
Theorem createHandler_generated_code (c : Ctx) (shortCodeLength : Z)
    (w w' : World) (code : string) :
  FormValue c "custom" "" = "" →
  createHandler c shortCodeLength w
    = Done (JSON StatusCreated {[ "short_code" := code ]}) w' →
  Z.of_nat (String.length code) = shortCodeLength
  ∧ Forall (λ ch, alphabet ch = true) (list_ascii_of_string code).
Proof.
  intros Hc. unfold createHandler.
  destruct (decide (FormValue c "url" "" = "")); [discriminate|].
  destruct (parse_expiry _ 0) as [m|resp] eqn:Hexp.
  2:{ destruct (parse_expiry_inr _ _ _ Hexp) as [b ->]. discriminate. }
  destruct (decide (FormValue c "custom" "" = "")); [|done].
  unfold mbind at 1. unfold M_bind at 1.
  destruct (GenerateRandomString shortCodeLength w)
    as [[code0 err] w0|msg] eqn:Hgen; [|discriminate].
  destruct err as [err|]; [discriminate|].
  intros H. apply createHandler_store in H as (Hbody & _ & _).
  apply short_code_inj in Hbody as ->.
  apply GenerateRandomString_Done in Hgen as [Hneg Hgen].
  apply GenerateRandomString_loop_inv in Hgen.
  - destruct Hgen as (Hlen & Hall & _). rewrite length_replicate in Hlen.
    split; [lia|done].
  - rewrite length_replicate. lia.
  - apply Forall_nil_2.
Qed.

Lemma createHandler_generated_code_witness :
  Z.of_nat (String.length "012zAG") = 6
  ∧ Forall (λ ch, alphabet ch = true) (list_ascii_of_string "012zAG").
Proof.
  refine (createHandler_generated_code
            (mkCtx ∅ {[ "url" := "https://example.com" ]}) 6
            (mkWorld ∅ 1700000000000000000 []
               [Byte.x00; Byte.xff; Byte.x41; Byte.x42; Byte.x7d; Byte.x3e;
                Byte.x0a; Byte.x10])
            (mkWorld {[ "012zAG" := mkItem "https://example.com" 0 ]}
               1700000000000000000 [] [])
            "012zAG" _ _).
  - reflexivity.
  - vm_compute. reflexivity.
Defined.

(** X11. Expiry through the handlers: when a request whose [expiry] field
    parses to between 1 and 153722867 minutes is answered 201, then, at
    clock readings that fit an [int64] of nanoseconds and with the record
    left in place, [redirectHandler] redirects to the url while the Unix
    second of the request is before that of the creation plus 60 seconds
    per minute, and answers 404 from then on. *)
Theorem create_expiry_window (c c' : Ctx) (shortCodeLength m : Z)
    (w w1 w2 : World) (code : string) :
  Atoi (FormValue c "expiry" "") = (m, None) →
  1 <= m <= 153722867 →
  0 <= clock w < 2 ^ 63 →
  0 <= clock w2 < 2 ^ 63 →
  createHandler c shortCodeLength w
    = Done (JSON StatusCreated {[ "short_code" := code ]}) w1 →
  Params c' "shortcode" = code →
  store w2 !! code = store w1 !! code →
  no_faults 3 w2 →
  ∃ w3,
    redirectHandler c' w2 =
      Done (if bool_decide (time_Unix (clock w2) < time_Unix (clock w) + 60 * m)
            then RedirectTo (FormValue c "url" "")
            else SendStatus StatusNotFound) w3.
Proof.
  intros Hatoi Hm Hck Hck2 Hcreate Hc' Hsame Hq.
  apply createHandler_Created in Hcreate
    as (code0 & m0 & Hbody & _ & Hexp & _ & Hst & _).
  apply short_code_inj in Hbody as <-.
  apply parse_expiry_inl in Hexp as [[He _]|(_ & Hm0 & _)].
  { rewrite He in Hatoi. discriminate. }
  rewrite Hatoi in Hm0. injection Hm0 as <-.
  pose proof (time_Unix_bounds _ Hck) as Hu.
  rewrite Hst, lookup_insert_eq, Set_expiresAt_in_range in Hsame by lia.
  destruct (redirectHandler_quiet c' w2 Hq) as (w3 & Hr & _).
  exists w3. rewrite Hr, Hc'. unfold live. rewrite Hsame.
  cbn [item_expiresAt item_value fmap option_fmap option_map default
       from_option id].
  rewrite isDeletedOrExpired_window by lia.
  destruct (decide (time_Unix (clock w) + 60 * m <= time_Unix (clock w2))).
  - rewrite bool_decide_eq_true_2 by done.
    rewrite bool_decide_eq_false_2 by lia. done.
  - rewrite bool_decide_eq_false_2 by done.
    rewrite bool_decide_eq_true_2 by lia. done.
Qed.

Lemma create_expiry_window_witness :
  let st : gmap string Item := {[ "x" := mkItem "https://x.com" 1700000060 ]} in
  (∃ w3, redirectHandler (mkCtx {[ "shortcode" := "x" ]} ∅)
           (mkWorld st 1700000059000000000 [] [])
         = Done (RedirectTo "https://x.com") w3)
  ∧ (∃ w3, redirectHandler (mkCtx {[ "shortcode" := "x" ]} ∅)
             (mkWorld st 1700000060000000000 [] [])
           = Done (SendStatus StatusNotFound) w3).
Proof.
  cbv zeta. split.
  - refine (create_expiry_window
              (mkCtx ∅ {[ "custom" := "x"; "url" := "https://x.com";
                          "expiry" := "1" ]})
              (mkCtx {[ "shortcode" := "x" ]} ∅) 6 1
              (mkWorld ∅ 1700000000000000000 [] [])
              (mkWorld {[ "x" := mkItem "https://x.com" 1700000060 ]}
                 1700000000000000000 [] [])
              (mkWorld {[ "x" := mkItem "https://x.com" 1700000060 ]}
                 1700000059000000000 [] [])
              "x" _ _ _ _ _ _ _ _).
    + reflexivity.
    + lia.
    + cbn. lia.
    + cbn. lia.
    + vm_compute. reflexivity.
    + reflexivity.
    + reflexivity.
    + apply Forall_nil_2.
  - refine (create_expiry_window
              (mkCtx ∅ {[ "custom" := "x"; "url" := "https://x.com";
                          "expiry" := "1" ]})
              (mkCtx {[ "shortcode" := "x" ]} ∅) 6 1
              (mkWorld ∅ 1700000000000000000 [] [])
              (mkWorld {[ "x" := mkItem "https://x.com" 1700000060 ]}
                 1700000000000000000 [] [])
              (mkWorld {[ "x" := mkItem "https://x.com" 1700000060 ]}
                 1700000060000000000 [] [])
              "x" _ _ _ _ _ _ _ _).
    + reflexivity.
    + lia.
    + cbn. lia.
    + cbn. lia.
    + vm_compute. reflexivity.
    + reflexivity.
    + reflexivity.
    + apply Forall_nil_2.
Defined.

(** X12. A link created without [expiry] field never expires: after a 201,
    [redirectHandler] redirects to the url at any later clock reading, as
    long as the record is left in place and the engine's reads go
    through. *)
Theorem create_without_expiry (c c' : Ctx) (shortCodeLength : Z)
    (w w1 w2 : World) (code : string) :
  FormValue c "expiry" "" = "" →
  createHandler c shortCodeLength w
    = Done (JSON StatusCreated {[ "short_code" := code ]}) w1 →
  Params c' "shortcode" = code →
  store w2 !! code = store w1 !! code →
  no_faults 3 w2 →
  ∃ w3, redirectHandler c' w2 = Done (RedirectTo (FormValue c "url" "")) w3.
Proof.
  intros He Hcreate Hc' Hsame Hq.
  apply createHandler_Created in Hcreate
    as (code0 & m0 & Hbody & _ & Hexp & _ & Hst & _).
  apply short_code_inj in Hbody as <-.
  apply parse_expiry_inl in Hexp as [[_ ->]|(Hne & _)]; [|done].
  rewrite Hst, lookup_insert_eq in Hsame. cbn in Hsame.
  apply redirectHandler_live; rewrite ?Hc'; [| |done].
  - by rewrite Hsame.
  - unfold live. by rewrite Hsame.
Qed.

Lemma create_without_expiry_witness :
  ∃ w3,
    redirectHandler (mkCtx {[ "shortcode" := "abc" ]} ∅)
      (mkWorld {[ "abc" := mkItem "https://a.com" 0 ]}
         9000000000000000000 [] [])
    = Done (RedirectTo "https://a.com") w3.
Proof.
  refine (create_without_expiry
            (mkCtx ∅ {[ "custom" := "abc"; "url" := "https://a.com" ]})
            (mkCtx {[ "shortcode" := "abc" ]} ∅) 6
            (mkWorld ∅ 1700000000000000000 [] [])
            (mkWorld {[ "abc" := mkItem "https://a.com" 0 ]}
               1700000000000000000 [] [])
            _ "abc" _ _ _ _ _).
  - reflexivity.
  - vm_compute. reflexivity.
  - reflexivity.
  - reflexivity.
  - apply Forall_nil_2.
Defined.

(** X13. [redirectHandler] only reads: whatever the engine does, it answers
    (it never panics) and leaves store, clock and random source as they
    were; and the answer is 404, 500, or a redirect to the url stored under
    the code, the latter only for a record that is live. *)
Theorem redirectHandler_outcomes (c : Ctx) (w : World) :
  ∃ resp w',
    redirectHandler c w = Done resp w'
    ∧ store w' = store w ∧ clock w' = clock w ∧ entropy w' = entropy w
    ∧ (resp = SendStatus StatusNotFound
       ∨ resp = SendStatus StatusInternalServerError
       ∨ ∃ url, resp = RedirectTo url
                ∧ live w (Params c "shortcode") = true
                ∧ item_value <$> store w !! Params c "shortcode" = Some url).
Proof.
  unfold redirectHandler, mbind at 1. unfold M_bind at 1.
  destruct (KV_Exists_frame (Params c "shortcode") w)
    as (b & err & w0 & -> & Hs0 & Hc0 & He0 & Hb).
  destruct err as [e|]; [munfold; eexists _, w0; split_and!; eauto|].
  destruct b; cbn [negb]; [|munfold; eexists _, w0; split_and!; eauto].
  unfold mbind, M_bind.
  destruct (KV_Get_frame (Params c "shortcode") w0)
    as (v & err & w1 & -> & Hs1 & Hc1 & He1 & Hv).
  destruct err as [e|]; munfold; eexists _, w1;
    (split; [done|]); split_and!; try congruence; eauto.
  destruct (Hv eq_refl) as [_ Hurl]. rewrite Hs0 in Hurl.
  right. right. exists v. split_and!; [done| |done].
  symmetry. by apply Hb.
Qed.

(** X14. A failure of the engine is answered 500 by [redirectHandler],
    whether it is the lookup of [Exists] that fails, or, for a live record,
    the lookup of [Get] or the copy of the value. *)
Theorem redirectHandler_engine_failure (c : Ctx) (w : World) (msg : string)
    (fs : list (option string)) :
  faults w = Some msg :: fs
  ∨ (live w (Params c "shortcode") = true
     ∧ (faults w = None :: Some msg :: fs
        ∨ faults w = None :: None :: Some msg :: fs)) →
  redirectHandler c w
    = Done (SendStatus StatusInternalServerError) (set_faults fs w).
Proof.
  destruct w as [st ck fs0 en]. unfold live, redirectHandler.
  cbn [store clock faults].
  intros [Hf|[Hlive [Hf|Hf]]]; rewrite Hf; kv_unfold; cbn.
  - reflexivity.
  - destruct (st !! Params c "shortcode") as [it|] eqn:Hit; [|done].
    cbn in *. destruct (isDeletedOrExpired _ _) eqn:Hexp; [done|].
    cbn. rewrite ?Hit. cbn. rewrite ?Hexp. reflexivity.
  - destruct (st !! Params c "shortcode") as [it|] eqn:Hit; [|done].
    cbn in *. destruct (isDeletedOrExpired _ _) eqn:Hexp; [done|].
    cbn. rewrite ?Hit. cbn. rewrite ?Hexp. reflexivity.
Qed.

Lemma redirectHandler_engine_failure_witness :
  let st : gmap string Item := {[ "abc" := mkItem "https://a.com" 0 ]} in
  redirectHandler (mkCtx {[ "shortcode" := "abc" ]} ∅)
    (mkWorld st 1700000000000000000 [None; Some "read error"; None] [])
  = Done (SendStatus StatusInternalServerError)
      (mkWorld st 1700000000000000000 [None] []).
Proof.
  cbv zeta.
  exact (redirectHandler_engine_failure
           (mkCtx {[ "shortcode" := "abc" ]} ∅)
           (mkWorld {[ "abc" := mkItem "https://a.com" 0 ]}
              1700000000000000000 [None; Some "read error"; None] [])
           "read error" [None]
           (or_intror (conj eq_refl (or_introl eq_refl)))).
Defined.

(** X15. [deleteHandler], whatever the engine does, answers (it never
    panics) with 204, 404 or 500; the store changes only with a 204, which
    is given only for a live record and removes exactly the key of the
    code; clock and random source are never touched. *)
Theorem deleteHandler_outcomes (c : Ctx) (w : World) :
  ∃ resp w',
    deleteHandler c w = Done resp w'
    ∧ clock w' = clock w ∧ entropy w' = entropy w
    ∧ ((resp = SendStatus StatusNoContent
        ∧ live w (Params c "shortcode") = true
        ∧ store w' = delete (Params c "shortcode") (store w))
       ∨ ((resp = SendStatus StatusNotFound
           ∨ resp = SendStatus StatusInternalServerError)
          ∧ store w' = store w)).
Proof.
  unfold deleteHandler, mbind at 1. unfold M_bind at 1.
  destruct (KV_Exists_frame (Params c "shortcode") w)
    as (b & err & w0 & -> & Hs0 & Hc0 & He0 & Hb).
  destruct err as [e|]; [munfold; eexists _, w0; split_and!; eauto|].
  destruct b; cbn [negb]; [|munfold; eexists _, w0; split_and!; eauto].
  unfold mbind, M_bind.
  destruct (KV_Delete_inv (Params c "shortcode") w0)
    as (err & w1 & -> & Hc1 & He1 & Hs1).
  destruct err as [e|]; munfold; eexists _, w1;
    (split; [done|]); split_and!; try congruence.
  - right. split; [eauto|congruence].
  - left. split_and!; [done| |congruence]. symmetry. by apply Hb.
Qed.

(** X16. Removing twice: on a quiet engine [deleteHandler] answers 204 for
    a code with a live record and removes it, and a second request for the
    same code, with the store left as it is, is answered 404. *)
Theorem deleteHandler_twice (c : Ctx) (w : World) :
  no_faults 3 w →
  live w (Params c "shortcode") = true →
  ∃ w',
    deleteHandler c w = Done (SendStatus StatusNoContent) w'
    ∧ store w' = delete (Params c "shortcode") (store w)
    ∧ ∀ c2 w2,
        Params c2 "shortcode" = Params c "shortcode" →
        store w2 = store w' →
        no_faults 1 w2 →
        deleteHandler c2 w2 = Done (SendStatus StatusNotFound) (pop_fault w2).
Proof.
  intros Hq Hlive. unfold deleteHandler at 1. unfold mbind at 1.
  unfold M_bind at 1. rewrite (KV_Exists_quiet 2 _ _ Hq), Hlive. cbn [negb].
  unfold mbind, M_bind.
  rewrite (KV_Delete_quiet 0) by (by apply no_faults_pop).
  munfold. eexists. split; [done|].
  cbn [store set_store]. rewrite store_pop_fault. split; [done|].
  intros c2 w2 Hc2 Hst Hq2. apply deleteHandler_not_live; [done|].
  apply live_absent. by rewrite Hc2, Hst, lookup_delete_eq.
Qed.

Lemma deleteHandler_twice_witness :
  let c := mkCtx {[ "shortcode" := "abc" ]} ∅ in
  let w := mkWorld {[ "abc" := mkItem "https://a.com" 0 ]}
             1700000000000000000 [] [] in
  ∃ w',
    deleteHandler c w = Done (SendStatus StatusNoContent) w'
    ∧ store w' = delete "abc" (store w)
    ∧ deleteHandler c w' = Done (SendStatus StatusNotFound) (pop_fault w').
Proof.
  cbv zeta.
  destruct (deleteHandler_twice (mkCtx {[ "shortcode" := "abc" ]} ∅)
              (mkWorld {[ "abc" := mkItem "https://a.com" 0 ]}
                 1700000000000000000 [] []))
    as (w' & Hdel & Hst & Hagain).
  - apply Forall_nil_2.
  - reflexivity.
  - exists w'. split; [exact Hdel|]. split; [exact Hst|].
    apply Hagain; [reflexivity|reflexivity|].
    vm_compute in Hdel. injection Hdel as <-. apply Forall_nil_2.
Defined.

(** ** The routes *)

(** [redirectHandler] never writes to the store. *)
Lemma redirectHandler_store (c : Ctx) (w w' : World) (resp : Response) :
  redirectHandler c w = Done resp w' → store w' = store w.
Proof.
  unfold redirectHandler, mbind at 1. unfold M_bind at 1.
  destruct (KV_Exists_frame (Params c "shortcode") w)
    as (b & err & w0 & -> & Hs0 & _).
  destruct err as [e|]; [munfold; by intros [= _ <-]|].
  destruct b; cbn [negb]; [|munfold; by intros [= _ <-]].
  unfold mbind, M_bind.
  destruct (KV_Get_frame (Params c "shortcode") w0)
    as (v & err & w1 & -> & Hs1 & _).
  destruct err as [e|]; munfold; intros [= _ <-]; congruence.
Qed.

(** X17. The API key guards every change: a POST or DELETE request whose
    [X-API-KEY] header differs from the configured key is answered 401 with
    the world untouched, and whenever a request on any route leaves the
    store different from what it was, it carried the configured key. *)
Theorem main_route_guard (apiKey : string) (shortCode : Z) (route : Route)
    (r : Request) (w : World) :
  (route ≠ GetShortcode →
   Get r "X-API-KEY" ≠ apiKey →
   main_route apiKey shortCode route r w
     = Done (JSON StatusUnauthorized {[ "error" := "wrong api key" ]}) w)
  ∧ (∀ resp w',
       main_route apiKey shortCode route r w = Done resp w' →
       store w' ≠ store w →
       route ≠ GetShortcode ∧ Get r "X-API-KEY" = apiKey).
Proof.
  split.
  - intros Hroute Hkey. unfold main_route.
    destruct route; [done| |]; by destruct (decide _).
  - intros resp w' Hrun Hchg. unfold main_route in Hrun.
    destruct route.
    + apply redirectHandler_store in Hrun. done.
    + destruct (decide (Get r "X-API-KEY" ≠ apiKey)) as [|Hk].
      * munfold. injection Hrun as <- <-. done.
      * split; [done|]. by destruct (decide (Get r "X-API-KEY" = apiKey)).
    + destruct (decide (Get r "X-API-KEY" ≠ apiKey)) as [|Hk].
      * munfold. injection Hrun as <- <-. done.
      * split; [done|]. by destruct (decide (Get r "X-API-KEY" = apiKey)).
Qed.

Lemma main_route_guard_witness :
  let r := mkRequest {[ "X-API-KEY" := "guess" ]}
             (mkCtx {[ "shortcode" := "abc" ]} ∅) in
  let w := mkWorld {[ "abc" := mkItem "https://a.com" 0 ]}
             1700000000000000000 [] [] in
  main_route "secret" 6 DeleteShorten r w
    = Done (JSON StatusUnauthorized {[ "error" := "wrong api key" ]}) w.
Proof.
  cbv zeta. apply (proj1 (main_route_guard "secret" 6 DeleteShorten _ _));
    discriminate.
Defined.

(** X18. With API_KEY unset in the environment the guard compares with the
    empty string, which is also what a request without [X-API-KEY] header
    yields: such a request passes the guard and reaches the handler. *)
Theorem main_app_unset_key (env : gmap string string) (r : Request) :
  env !! "API_KEY" = None →
  req_headers r !! "X-API-KEY" = None →
  main_app env PostShorten r = createHandler (req_ctx r) (main_shortCode env)
  ∧ main_app env DeleteShorten r = deleteHandler (req_ctx r).
Proof.
  intros Henv Hhdr. unfold main_app, main_route, os_Getenv, Get.
  rewrite Henv, Hhdr. cbn [default from_option id].
  by destruct (decide ("" ≠ "")).
Qed.

Lemma main_app_unset_key_witness :
  let r := mkRequest ∅ (mkCtx {[ "shortcode" := "abc" ]} ∅) in
  let w := mkWorld {[ "abc" := mkItem "https://a.com" 0 ]}
             1700000000000000000 [] [] in
  main_app ∅ DeleteShorten r w
  = Done (SendStatus StatusNoContent) (mkWorld ∅ 1700000000000000000 [] []).
Proof.
  cbv zeta.
  rewrite (proj2 (main_app_unset_key ∅
             (mkRequest ∅ (mkCtx {[ "shortcode" := "abc" ]} ∅))
             (lookup_empty _) (lookup_empty _))).
  vm_compute. reflexivity.
Defined.

(** ** More on [createHandler] *)

(** X19. When the random source fails before the code is complete (the
    reader holds fewer accepted bytes than the length, which is within the
    limit of [make], asks for), [createHandler], for a valid request
    without custom code, answers 500 without calling the engine: the store
    and the engine's pending outcomes are as they were. *)
Theorem createHandler_entropy_failure (c : Ctx) (shortCodeLength m : Z)
    (w : World) :
  FormValue c "custom" "" = "" →
  FormValue c "url" "" ≠ "" →
  parse_expiry (FormValue c "expiry" "") 0 = inl m →
  0 <= shortCodeLength <= maxAlloc →
  (length (filter (λ b, accepted b = true) (entropy w))
     < Z.to_nat shortCodeLength)%nat →
  createHandler c shortCodeLength w
    = Done (SendStatus StatusInternalServerError) (set_entropy [] w).
Proof.
  intros Hc Hurl Hexp Hlen Hshort. unfold createHandler.
  destruct (decide (FormValue c "url" "" = "")); [done|].
  rewrite Hexp. destruct (decide (FormValue c "custom" "" = "")); [|done].
  unfold mbind, M_bind. rewrite GenerateRandomString_in_range by done.
  rewrite GenerateRandomString_loop_spec by (by rewrite length_replicate).
  destruct (decide _); [lia|done].
Qed.

Lemma createHandler_entropy_failure_witness :
  let w := mkWorld {[ "k" := mkItem "v" 0 ]} 1700000000000000000
             [Some "unused"] [Byte.x01; Byte.xff; Byte.x02] in
  createHandler (mkCtx ∅ {[ "url" := "https://a.com" ]}) 3 w
    = Done (SendStatus StatusInternalServerError) (set_entropy [] w).
Proof.
  cbv zeta.
  apply (createHandler_entropy_failure _ 3 0).
  - reflexivity.
  - discriminate.
  - reflexivity.
  - unfold maxAlloc. lia.
  - vm_compute. lia.
Defined.

(** X20. The validation of [createHandler] is exact: the handler answers
    400 if and only if the url is empty, or the [expiry] field is supplied
    and does not parse or parses to a number below 1. *)
Theorem createHandler_BadRequest_iff (c : Ctx) (shortCodeLength : Z)
    (w : World) :
  (∃ body w',
      createHandler c shortCodeLength w = Done (JSON StatusBadRequest body) w')
  ↔ (FormValue c "url" "" = ""
     ∨ (FormValue c "expiry" "" ≠ ""
        ∧ ((Atoi (FormValue c "expiry" "")).2 ≠ None
           ∨ (Atoi (FormValue c "expiry" "")).1 < 1))).
Proof.
  unfold createHandler.
  destruct (decide (FormValue c "url" "" = "")) as [Hurl|Hurl].
  { split; [by left|]. intros _. munfold. eauto. }
  destruct (parse_expiry (FormValue c "expiry" "") 0) as [m|resp] eqn:Hexp.
  - split; [|].
    + intros (body & w' & H). exfalso.
      destruct (decide (FormValue c "custom" "" = "")).
      * unfold mbind at 1 in H. unfold M_bind at 1 in H.
        destruct (GenerateRandomString _ _) as [[code err] w0|]; [|done].
        destruct err; [done|].
        unfold mbind, M_bind in H.
        destruct (KV_Set_inv code (FormValue c "url" "") m w0)
          as (err & w1 & Heq & _). rewrite Heq in H. by destruct err.
      * unfold mbind at 1 in H. unfold M_bind at 1 in H.
        unfold mret at 1 in H. unfold M_ret at 1 in H.
        unfold mbind, M_bind in H.
        destruct (KV_Set_inv (FormValue c "custom" "") (FormValue c "url" "")
                    m w) as (err & w1 & Heq & _).
        rewrite Heq in H. by destruct err.
    + intros [H|(Hne & H)]; [done|]. exfalso.
      apply parse_expiry_inl in Hexp as [[He _]|(_ & Hm & Hge)]; [done|].
      rewrite Hm in H. cbn in H. destruct H; [done|lia].
  - destruct (parse_expiry_inr _ _ _ Hexp) as [b ->]. split.
    + intros _. right. unfold parse_expiry in Hexp.
      destruct (decide (FormValue c "expiry" "" ≠ "")) as [Hne|]; [|done].
      split; [done|].
      destruct (Atoi (FormValue c "expiry" "")) as [exp [e|]]; cbn.
      * by left.
      * right. destruct (exp <? 1) eqn:Hlt; [|done]. by apply Z.ltb_lt.
    + intros _. munfold. eauto.
Qed.

Lemma createHandler_BadRequest_iff_witness :
  let w := mkWorld ∅ 1700000000000000000 [] [] in
  (∃ body w',
      createHandler
        (mkCtx ∅ {[ "custom" := "a"; "url" := "https://a.com";
                    "expiry" := "0" ]}) 6 w
      = Done (JSON StatusBadRequest body) w')
  ∧ ¬ (∃ body w',
         createHandler
           (mkCtx ∅ {[ "custom" := "a"; "url" := "https://a.com";
                       "expiry" := "+7" ]}) 6 w
         = Done (JSON StatusBadRequest body) w').
Proof.
  cbv zeta. split.
  - apply createHandler_BadRequest_iff. right. split; [discriminate|].
    right. vm_compute. reflexivity.
  - intros H. apply createHandler_BadRequest_iff in H.
    destruct H as [H|(_ & [H|H])].
    + discriminate H.
    + apply H. reflexivity.
    + vm_compute in H. discriminate H.
Defined.
